(** * PyGnome dissolution weatherer: a shallow embedding

    Source: [py_gnome/gnome/weatherers/dissolution.py], class [Dissolution].

    numpy's [float64] values are Rocq's primitive binary64 floats, so every
    arithmetic step below rounds as the Python code does.  One-dimensional
    arrays are lists, the [mass_components] matrix is a list of rows, the
    [mass_balance] dict is a finite map keyed by strings.  Python exceptions
    are an error result; the queries sent to the wave, wind and water
    providers are recorded in a log that the computation threads along, and
    a query or a physical model may fail. *)

From Stdlib Require Import ZArith Lia Bool Floats.
From stdpp Require Import base option list sorting gmap strings.

Set Warnings "-inexact-float".
Set Default Proof Using "Type".

(** ** Exceptions and the effect monad *)

Inductive exn : Type :=
  | AssertionError
  | AttributeError
  | IndexError
  | KeyError
  | ValueError.

Inductive result (A : Type) : Type :=
  | Ok (a : A)
  | Raise (e : exn).
Arguments Ok {A} a.
Arguments Raise {A} e.

(** One entry per call on the environment objects reachable from
    [self.waves]. *)
Inductive env_query : Type :=
  | WaterDensity
  | PeakWavePeriod (model_time : Z)
  | WaveHeight (model_time : Z)
  | WindSpeed (model_time : Z).

Definition M (A : Type) : Type := list env_query -> result (A * list env_query).

Definition ret {A} (a : A) : M A := fun log => Ok (a, log).

Definition bind {A B} (m : M A) (k : A -> M B) : M B :=
  fun log => match m log with
             | Ok (a, log') => k a log'
             | Raise e => Raise e
             end.

Definition raise {A} (e : exn) : M A := fun _ => Raise e.

Definition lift {A} (r : result A) : M A :=
  fun log => match r with Ok a => Ok (a, log) | Raise e => Raise e end.

Definition ask (q : env_query) : M unit := fun log => Ok (tt, log ++ [q]).

Definition assert_ (b : bool) : M unit :=
  if b then ret tt else raise AssertionError.

Declare Scope py_scope.
Delimit Scope py_scope with py.
Notation "x <~ m ;; k" := (bind m (fun x => k))
  (at level 100, m at next level, right associativity) : py_scope.
Notation "m ;;; k" := (bind m (fun _ => k))
  (at level 100, right associativity) : py_scope.
Open Scope py_scope.

(** ** numpy on one-dimensional arrays *)

(** [np.sum] of a 1-d [float64] array, and [.sum(1)] on one row of a 2-d
    array: numpy's [add.reduce] over a contiguous run starts from the
    identity [0.0] and adds the pairwise sum of the run.  The pairwise sum
    adds fewer than 8 entries from [0.0] left to right; it adds up to 128
    entries with 8 accumulators that take every eighth entry, combined as a
    tree, after which the entries behind the last full block of 8 are added
    one by one; it splits a longer run in two at a multiple of 8. *)
Fixpoint pairwise_block (r0 r1 r2 r3 r4 r5 r6 r7 : float) (a : list float)
  : float :=
  match a with
  | a0 :: a1 :: a2 :: a3 :: a4 :: a5 :: a6 :: a7 :: rest =>
      pairwise_block (r0 + a0) (r1 + a1) (r2 + a2) (r3 + a3)
        (r4 + a4) (r5 + a5) (r6 + a6) (r7 + a7) rest
  | _ =>
      foldl PrimFloat.add
        (((r0 + r1) + (r2 + r3)) + ((r4 + r5) + (r6 + r7))) a
  end%float.

(** The recursion on the two halves is bounded by [fuel]; the length of the
    run is enough ([pairwise_sum_fuel_enough]). *)
Fixpoint pairwise_sum_fuel (fuel : nat) (a : list float) {struct fuel}
  : float :=
  match a with
  | a0 :: a1 :: a2 :: a3 :: a4 :: a5 :: a6 :: a7 :: rest =>
      match fuel with
      | S fuel' =>
          if (length a <=? 128)%nat
          then pairwise_block a0 a1 a2 a3 a4 a5 a6 a7 rest
          else
            let n2 := (length a / 2)%nat in
            let n2 := (n2 - n2 mod 8)%nat in
            (pairwise_sum_fuel fuel' (take n2 a)
             + pairwise_sum_fuel fuel' (drop n2 a))%float
      | O => pairwise_block a0 a1 a2 a3 a4 a5 a6 a7 rest
      end
  | _ => foldl PrimFloat.add 0%float a
  end.

Definition pairwise_sum (a : list float) : float :=
  pairwise_sum_fuel (length a) a.

Definition np_sum (a : list float) : float := (0 + pairwise_sum a)%float.

(** Element-wise binary operation with numpy's broadcasting rule for two 1-d
    operands: equal lengths pair up, a length-one operand is stretched, any
    other combination is a [ValueError]. *)
Definition broadcast {A B C} (f : A -> B -> C) (a : list A) (b : list B)
  : result (list C) :=
  if decide (length a = length b) then Ok (zip_with f a b)
  else match a, b with
       | [x], _ => Ok (map (f x) b)
       | _, [y] => Ok (map (fun x => f x y) a)
       | _, _ => Raise ValueError
       end.

(** A boolean used as a number ([True] is [1.0], [False] is [0.0]). *)
Definition of_bool (b : bool) : float := if b then 1%float else 0%float.

(** [np.zeros(n)]. *)
Definition np_zeros (n : nat) : list float := replicate n 0%float.

(** [np.isclose(a, b)] on scalars with the default [rtol] and [atol]. *)
Definition rtol : float := 1e-5%float.
Definition atol : float := 1e-8%float.

Definition np_isclose (a b : float) : bool :=
  if is_finite a && is_finite b
  then (abs (a - b) <=? atol + rtol * abs b)%float
  else (a =? b)%float.

(** [a[mask]]: the entries selected by a boolean mask of the same length. *)
Definition bool_index {A} (a : list A) (mask : list bool) : result (list A) :=
  if decide (length a = length mask)
  then Ok (omap (fun p : A * bool => if p.2 then Some p.1 else None) (zip a mask))
  else Raise IndexError.

(** [a[mask] = v]. *)
Definition mask_assign {A} (a : list A) (mask : list bool) (v : A)
  : result (list A) :=
  if decide (length a = length mask)
  then Ok (zip_with (fun x (b : bool) => if b then v else x) a mask)
  else Raise IndexError.

(** [np.unique]: the distinct values, sorted. *)
Definition np_unique (a : list Z) : list Z := remove_dups (merge_sort Z.le a).

(** [a[idx] = v] for an index counted from zero. *)
Definition set_item {A} (a : list A) (idx : nat) (v : A) : result (list A) :=
  if decide (idx < length a) then Ok (<[idx := v]> a) else Raise IndexError.

(** ** Data model *)

(** The substance record as [dissolve_oil] reads it: [_sara['type']],
    [molecular_weight] and [component_density], one entry per component. *)
Record Substance : Type := {
  name : string;
  sara_type : list string;
  molecular_weight : list float;
  component_density : list float
}.

(** The per-substance array bundle handed out by [sc.itersubstancedata]: one
    entry (one row of [mass_components]) per element. *)
Record Data : Type := {
  mass : list float;
  mass_components : list (list float);
  density : list float;
  viscosity : list float;
  partition_coeff : list float;
  droplet_avg_size : list float;
  spill_num : list Z
}.

(** The environment objects behind [self.waves].  The water object may be
    missing ([waves.water] is [None]), and every query may fail, as it does
    outside the time range of the provider: [get_density] is
    [water.get('density')], [wave_height] is [waves.get_value(t)[0]] and
    [wind_speed] is [waves.wind.get_value(t)[0]]. *)
Record Water : Type := {
  get_density : result float
}.

Record Waves : Type := {
  water : option Water;
  peak_wave_period : Z -> result float;
  wave_height : Z -> result float;
  wind_speed : Z -> result float
}.

(** The weatherer: the two flags and the optional time window of the
    [Weatherer] base class, and the [waves] attribute, which the
    constructor defaults to [None]. *)
Record Dissolution : Type := {
  on : bool;
  active : bool;
  active_start : option Z;
  active_stop : option Z;
  waves : option Waves
}.

Record SpillContainer : Type := {
  num_released : nat;
  mass_balance : gmap string float;
  substance_data : list (Substance * Data)
}.

(** Modelled from the spec: [SpillContainer.itersubstancedata] is not among
    the sources.  The element store hands out one (substance, array bundle)
    pair per substance; the bundles are the mutable arrays of the store. *)
Definition itersubstancedata (sc : SpillContainer) : list (Substance * Data) :=
  substance_data sc.

(** Modelled from the spec: [SpillContainer.update_from_fatedataview] is not
    among the sources.  It writes the bundles that a weatherer has worked on
    back into the container. *)
Definition update_from_fatedataview (sc : SpillContainer)
    (views : list (Substance * Data)) : SpillContainer :=
  {| num_released := num_released sc;
     mass_balance := mass_balance sc;
     substance_data := views |}.

(** The container with its bundles replaced by the ones a loop has mutated
    in place. *)
Definition with_substance_data (sc : SpillContainer)
    (sds : list (Substance * Data)) : SpillContainer :=
  {| num_released := num_released sc;
     mass_balance := mass_balance sc;
     substance_data := sds |}.

Definition set_partition_coeff (d : Data) (pc : list float) : Data :=
  {| mass := mass d; mass_components := mass_components d;
     density := density d; viscosity := viscosity d;
     partition_coeff := pc;
     droplet_avg_size := droplet_avg_size d; spill_num := spill_num d |}.

Definition set_masses (d : Data) (mc : list (list float)) (ms : list float)
  : Data :=
  {| mass := ms; mass_components := mc;
     density := density d; viscosity := viscosity d;
     partition_coeff := partition_coeff d;
     droplet_avg_size := droplet_avg_size d; spill_num := spill_num d |}.

(** The functions of [gnome.utilities.weathering] that [dissolve_oil] calls,
    and the power of numpy's [float64].  Their code is not among the
    sources, and the binary64 primitives have no power function, so they
    are parameters of the model.  The phase-transfer velocity, the
    breaking-wave fraction and the water-column time fraction may fail (the
    first does so, or clamps, on a droplet size that is not positive); the
    partition values and the power are functions on floats. *)
Record PhysicalModels : Type := {
  LeeHuibers_partition_coeff : float -> float -> float;
  Stokes_water_phase_xfer_velocity : float -> float -> result float;
  DelvigneSweeney_breaking_waves_frac : float -> float -> result float;
  DingFarmer_water_column_time_fraction :
    float -> float -> float -> float -> result float;
  float_pow : float -> float -> float
}.

(** ** The weatherer's methods *)

Section Model.
Variable phys : PhysicalModels.
Variable self : Dissolution.

Local Open Scope float_scope.

(** [prepare_for_model_run]: the ledger key is created only when the
    process is on. *)
Definition prepare_for_model_run (sc : SpillContainer) : SpillContainer :=
  if on self
  then {| num_released := num_released sc;
          mass_balance := <["dissolution"%string := 0]> (mass_balance sc);
          substance_data := substance_data sc |}
  else sc.

(** Modelled from the spec: [Weatherer.prepare_for_model_step], which the
    method calls before it does anything else, is not among the sources.
    The specification gives a process an on/off flag and an optional
    active time window (start/stop), and lets a step invoke the processes
    that are enabled and inside their window; the call sets [active]
    accordingly.  A bound that is absent does not restrict. *)
Definition in_active_window (model_time : Z) : bool :=
  match active_start self with
  | Some start => (start <=? model_time)%Z
  | None => true
  end &&
  match active_stop self with
  | Some stop => (model_time <? stop)%Z
  | None => true
  end.

(** [prepare_for_model_step]: after the call of the base class the method
    returns, whether the process is active or not. *)
Definition prepare_for_model_step (sc : SpillContainer) (time_step : float)
    (model_time : Z) : Dissolution :=
  {| on := on self;
     active := on self && in_active_window model_time;
     active_start := active_start self;
     active_stop := active_stop self;
     waves := waves self |}.

(** The loop body of [_initialize_k_ow] over the spill numbers found under
    the mask. *)
Definition initialize_spill (mask : list bool) (spills : list Z)
    (pc : list float) (s_num : Z) : result (list float) :=
  match broadcast andb mask (map (Z.eqb s_num) spills) with
  | Ok s_mask => mask_assign pc s_mask 0
  | Raise e => Raise e
  end.

Fixpoint initialize_spills (mask : list bool) (spills : list Z)
    (pc : list float) (s_nums : list Z) : result (list float) :=
  match s_nums with
  | [] => Ok pc
  | s_num :: rest =>
      match initialize_spill mask spills pc s_num with
      | Ok pc' => initialize_spills mask spills pc' rest
      | Raise e => Raise e
      end
  end.

(** One pass of the [for substance, data] loop of [_initialize_k_ow]:
    the running [num_initialized] and the bundle as left by the pass. *)
Definition initialize_substance (num_initialized : nat) (data : Data)
  : result (nat * Data) :=
  if decide (length (partition_coeff data) = 0%nat)
  then Ok (num_initialized, data)
  else
    let mask := map (fun k => k =? 0) (partition_coeff data) in
    let num_initialized := (num_initialized + length mask)%nat in
    match bool_index (spill_num data) mask with
    | Raise e => Raise e
    | Ok masked =>
        match initialize_spills mask (spill_num data)
                (partition_coeff data) (np_unique masked) with
        | Raise e => Raise e
        | Ok pc => Ok (num_initialized, set_partition_coeff data pc)
        end
    end.

Fixpoint initialize_loop (num_initialized : nat)
    (sds : list (Substance * Data)) : result (nat * list (Substance * Data)) :=
  match sds with
  | [] => Ok (num_initialized, [])
  | (substance, data) :: rest =>
      match initialize_substance num_initialized data with
      | Raise e => Raise e
      | Ok (n, data') =>
          match initialize_loop n rest with
          | Raise e => Raise e
          | Ok (n', rest') => Ok (n', (substance, data') :: rest')
          end
      end
  end.

Definition _initialize_k_ow (sc : SpillContainer) (num_released : nat)
  : result SpillContainer :=
  match initialize_loop 0%nat (itersubstancedata sc) with
  | Raise e => Raise e
  | Ok (num_initialized, sds) =>
      if decide (num_initialized = num_released)
      then Ok (with_substance_data sc sds)
      else Raise AssertionError
  end.

Definition initialize_data (sc : SpillContainer) (num_released : nat)
  : result SpillContainer :=
  if negb (on self) then Ok sc else _initialize_k_ow sc num_released.

(** [self.waves.<attribute>]: an [AttributeError] when [waves] is [None]. *)
Definition get_waves : M Waves :=
  match waves self with
  | Some wv => ret wv
  | None => raise AttributeError
  end.

Definition oil_avg_density (masses densities : list float) : M float :=
  assert_ (bool_decide (length masses = length densities)) ;;;
  scaled <~ lift (broadcast PrimFloat.mul
                    (map (fun x => x / np_sum masses) masses) densities) ;;
  ret (np_sum scaled).

Definition beta_coeff (k_w K_ow v_inert : float) : float :=
  -4.84 * k_w / K_ow * float_pow phys v_inert (2 / 3).

(** [self.waves.water.get('density')]: an [AttributeError] when the water
    object is [None]. *)
Definition water_get_density (wv : Waves) : M float :=
  match water wv with
  | Some w => ask WaterDensity ;;; lift (get_density w)
  | None => raise AttributeError
  end.

Definition water_column_time_fraction (model_time : Z)
    (water_phase_xfer_velocity : float) : M float :=
  wv <~ get_waves ;;
  ask (PeakWavePeriod model_time) ;;;
  wave_period <~ lift (peak_wave_period wv model_time) ;;
  ask (WaveHeight model_time) ;;;
  wave_height_ <~ lift (wave_height wv model_time) ;;
  ask (WindSpeed model_time) ;;;
  wind_speed_ <~ lift (wind_speed wv model_time) ;;
  f_bw <~ lift (DelvigneSweeney_breaking_waves_frac phys
                  wind_speed_ wave_period) ;;
  lift (DingFarmer_water_column_time_fraction phys
          f_bw wave_period wave_height_ water_phase_xfer_velocity).

(** The overall partition coefficient of one element:
    [np.sum(m * K_ow_comp / mol_wt) / np.sum(m / mol_wt)]. *)
Definition overall_K_ow (m K_ow_comp mol_wt : list float) : result float :=
  match broadcast PrimFloat.mul m K_ow_comp with
  | Raise e => Raise e
  | Ok mK =>
      match broadcast PrimFloat.div mK mol_wt with
      | Raise e => Raise e
      | Ok num =>
          match broadcast PrimFloat.div m mol_wt with
          | Raise e => Raise e
          | Ok den => Ok (np_sum num / np_sum den)
          end
      end
  end.

(** [((m / rho) * mask).sum()]. *)
Definition masked_volume (m rho : list float) (mask : list bool)
  : result float :=
  match broadcast PrimFloat.div m rho with
  | Raise e => Raise e
  | Ok vol =>
      match broadcast (fun v b => v * of_bool b) vol mask with
      | Raise e => Raise e
      | Ok vs => Ok (np_sum vs)
      end
  end.

Definition total_volume_of (m rho : list float) : result float :=
  match broadcast PrimFloat.div m rho with
  | Raise e => Raise e
  | Ok vol => Ok (np_sum vol)
  end.

(** The body of the [for idx, (m, drop_sizes)] loop of [dissolve_oil]. It
    yields the [partition_coeff] array after the store at [idx] and the
    [mass_dissipated] value that the loop prints and then drops. *)
Definition dissolve_element (substance : Substance)
    (arom_mask not_arom_mask : list bool) (K_ow_comp : list float)
    (model_time : Z) (time_step : float)
    (pc : list float) (idx : nat) (m : list float) (drop_sizes : float)
  : M (list float * float) :=
  let mol_wt := molecular_weight substance in
  let rho := component_density substance in
  K_ow <~ lift (overall_K_ow m K_ow_comp mol_wt) ;;
  pc <~ lift (set_item pc idx K_ow) ;;
  avg_rho <~ oil_avg_density m rho ;;
  wv <~ get_waves ;;
  water_rho <~ water_get_density wv ;;
  k_w <~ lift (Stokes_water_phase_xfer_velocity phys
                 (water_rho - avg_rho) drop_sizes) ;;
  total_volume <~ lift (total_volume_of m rho) ;;
  aromatic_volume <~ lift (masked_volume m rho arom_mask) ;;
  S_RA_volume <~ lift (masked_volume m rho not_arom_mask) ;;
  let X := aromatic_volume / S_RA_volume in
  assert_ (np_isclose (aromatic_volume + S_RA_volume) total_volume) ;;;
  let beta := beta_coeff k_w K_ow S_RA_volume in
  let dX_dt := beta * X / float_pow phys (X + 1) (1 / 3) in
  f_wc <~ water_column_time_fraction model_time k_w ;;
  let time_spent_in_wc := f_wc * time_step in
  let mass_dissipated := dX_dt * time_spent_in_wc in
  ret (pc, mass_dissipated).

Fixpoint dissolve_rows (substance : Substance)
    (arom_mask not_arom_mask : list bool) (K_ow_comp : list float)
    (model_time : Z) (time_step : float)
    (pc : list float) (idx : nat) (rows : list (list float * float))
  : M (list float) :=
  match rows with
  | [] => ret pc
  | (m, drop_sizes) :: rest =>
      r <~ dissolve_element substance arom_mask not_arom_mask K_ow_comp
             model_time time_step pc idx m drop_sizes ;;
      dissolve_rows substance arom_mask not_arom_mask K_ow_comp
        model_time time_step (fst r) (S idx) rest
  end.

(** [K_ow_comp = arom_mask * LeeHuibers.partition_coeff(mol_wt, rho)]. *)
Definition K_ow_components (substance : Substance) (arom_mask : list bool)
  : result (list float) :=
  broadcast (fun (b : bool) k => of_bool b * k) arom_mask
    (zip_with (LeeHuibers_partition_coeff phys)
       (molecular_weight substance) (component_density substance)).

Definition aromatics_mask (substance : Substance) : list bool :=
  map (String.eqb "Aromatics") (sara_type substance).

(** [dissolve_oil]: the bundle with its [partition_coeff] rewritten, and
    the returned array [diss]. *)
Definition dissolve_oil (data : Data) (substance : Substance)
    (model_time : Z) (time_step : float) : M (Data * list float) :=
  let fmass := mass_components data in
  let drop_sizes := droplet_avg_size data in
  let arom_mask := aromatics_mask substance in
  let not_arom_mask := map (xorb true) arom_mask in
  assert_ (bool_decide (length (molecular_weight substance)
                        = length (component_density substance))) ;;;
  K_ow_comp <~ lift (K_ow_components substance arom_mask) ;;
  pc <~ dissolve_rows substance arom_mask not_arom_mask K_ow_comp
          model_time time_step (partition_coeff data) 0%nat
          (zip fmass drop_sizes) ;;
  let diss := np_zeros (length (mass data)) in
  ret (set_partition_coeff data pc, diss).

(** Lines 261-266 of [weather_elements]: the clamped fraction. *)
Definition diss_mass_frac (diss_sum mass_sum : float) : float :=
  if 0 <? mass_sum
  then let frac := diss_sum / mass_sum in
       if 1 <? frac then 1 else frac
  else 0.

(** [sc.mass_balance['dissolution'] += x]. *)
Definition add_dissolution (mb : gmap string float) (x : float)
  : result (gmap string float) :=
  match mb !! "dissolution"%string with
  | Some v => Ok (<["dissolution"%string := v + x]> mb)
  | None => Raise KeyError
  end.

(** The body of the [for substance, data] loop of [weather_elements]. *)
Definition weather_substance (model_time : Z) (time_step : float)
    (mb : gmap string float) (sd : Substance * Data)
  : M (gmap string float * (Substance * Data)) :=
  let substance := fst sd in
  let data := snd sd in
  if decide (length (mass data) = 0%nat) then ret (mb, sd)
  else
    r <~ dissolve_oil data substance model_time time_step ;;
    let data := fst r in
    let diss := snd r in
    mb <~ lift (add_dissolution mb (np_sum diss)) ;;
    let frac := diss_mass_frac (np_sum diss) (np_sum (mass data)) in
    let mc := map (map (PrimFloat.mul (1 - frac))) (mass_components data) in
    ret (mb, (substance, set_masses data mc (map np_sum mc))).

Fixpoint weather_loop (model_time : Z) (time_step : float)
    (mb : gmap string float) (sds : list (Substance * Data))
  : M (gmap string float * list (Substance * Data)) :=
  match sds with
  | [] => ret (mb, [])
  | sd :: rest =>
      r <~ weather_substance model_time time_step mb sd ;;
      r' <~ weather_loop model_time time_step (fst r) rest ;;
      ret (fst r', snd r :: snd r')
  end.

Definition weather_elements (sc : SpillContainer) (time_step : float)
    (model_time : Z) : M SpillContainer :=
  if negb (active self) then ret sc
  else if decide (num_released sc = 0%nat) then ret sc
  else
    r <~ weather_loop model_time time_step (mass_balance sc)
           (itersubstancedata sc) ;;
    ret (update_from_fatedataview
           {| num_released := num_released sc;
              mass_balance := fst r;
              substance_data := substance_data sc |}
           (snd r)).
End Model.

(** ** Notions used in the statements *)

(** Agreement within a relative tolerance of [1e-9] of the reference value
    [b], as [np.isclose(a, b, rtol=1e-9, atol=0)] decides it: two finite
    values are compared by their difference, otherwise the values must be
    equal (so NaN agrees with nothing). *)
Definition rel_tol : float := 1e-9%float.

Definition within_rel_tol (a b : float) : bool :=
  if is_finite a && is_finite b
  then (abs (a - b) <=? rel_tol * abs b)%float
  else (a =? b)%float.

(** A float that compares greater than or equal to zero (so not NaN). *)
Definition nonneg (x : float) : bool := (0 <=? x)%float.

Definition total_mass (d : Data) : float := np_sum (mass d).

(** The ledger entry of the process. *)
Definition ledger (sc : SpillContainer) : option float :=
  mass_balance sc !! "dissolution"%string.

(** Mass accounting for one bundle: what is left plus what the ledger holds
    agrees with what was released. *)
Definition conserved (d : Data) (ledger_entry released : float) : bool :=
  within_rel_tol (total_mass d + ledger_entry) released.

(** Every row's total mass is the sum of the row's component masses. *)
Definition row_sum_inv (d : Data) : Prop :=
  mass d = map np_sum (mass_components d).


(** No total mass and no component mass of the bundle is negative. *)
Definition masses_nonneg (d : Data) : Prop :=
  Forall (fun m => nonneg m = true) (mass d) /\
  Forall (Forall (fun m => nonneg m = true)) (mass_components d).

(** The accounting check on a container with one bundle. *)
Definition conservation_check (sc : SpillContainer) (released : float)
  : option bool :=
  match substance_data sc, ledger sc with
  | [(_, d)], Some v => Some (conserved d v released)
  | _, _ => None
  end.








(** [k] successive additions of [0.0]. *)
Definition add_zeros (k : nat) (v : float) : float :=
  Nat.iter k (fun x => (x + 0)%float) v.

(** The ledger after [k] executions of
    [sc.mass_balance['dissolution'] += 0.0]. *)
Definition ledger_plus_zeros (k : nat) (mb : gmap string float)
  : gmap string float :=
  Nat.iter k (fun mb => match mb !! "dissolution"%string with
                        | Some v => <["dissolution"%string := (v + 0)%float]> mb
                        | None => mb
                        end) mb.

(** The bundles that a step works on: those with at least one element. *)
Definition processed (sds : list (Substance * Data)) : nat :=
  length (filter (fun sd : Substance * Data => mass (snd sd) <> []) sds).

(** What [dissolve_oil] leaves in [partition_coeff]: at the index of every
    row it has gone through, the overall coefficient of that row; beyond,
    the old entries. *)
Definition stored_K_ow (phys : PhysicalModels) (s : Substance) (d : Data)
    (pc : list float) : Prop :=
  length pc = length (partition_coeff d) /\
  exists kc,
    K_ow_components phys s (aromatics_mask s) = Ok kc /\
    (forall idx m ds,
        zip (mass_components d) (droplet_avg_size d) !! idx = Some (m, ds) ->
        exists K, overall_K_ow m kc (molecular_weight s) = Ok K /\
                  pc !! idx = Some K) /\
    (forall j,
        length (zip (mass_components d) (droplet_avg_size d)) <= j ->
        pc !! j = partition_coeff d !! j).

(** What one pass of the [weather_elements] loop does to a bundle: nothing
    when it has no element; otherwise [partition_coeff] is rewritten, the
    component masses stay and the total masses become the row sums. *)
Definition substance_step (phys : PhysicalModels)
    (sd sd' : Substance * Data) : Prop :=
  fst sd' = fst sd /\
  if decide (mass (snd sd) = [])
  then snd sd' = snd sd
  else exists pc,
      stored_K_ow phys (fst sd) (snd sd) pc /\
      snd sd' = set_masses (set_partition_coeff (snd sd) pc)
                  (mass_components (snd sd))
                  (map np_sum (mass_components (snd sd))).

(** The sentinel rows of a bundle: partition coefficient equal to zero. *)
Definition sentinel_rows (d : Data) : nat :=
  length (filter (fun k => (k =? 0)%float = true) (partition_coeff d)).

(** Two arrays that differ at most where the old value compares equal to
    zero and the new one is [0.0]. *)
Definition same_but_zeros (old new : list float) : Prop :=
  Forall2 (fun o n => n = o \/ ((o =? 0)%float = true /\ n = 0%float)) old new.

(** Shapes that let [dissolve_oil] run all its array operations on a
    bundle: one entry per component in the substance arrays and in every
    row, one droplet size and one partition coefficient per row. *)
Definition shapes_ok (s : Substance) (d : Data) : Prop :=
  length (molecular_weight s) = length (sara_type s) /\
  length (component_density s) = length (sara_type s) /\
  Forall (fun m => length m = length (sara_type s)) (mass_components d) /\
  length (droplet_avg_size d) = length (mass_components d) /\
  length (partition_coeff d) = length (mass_components d).

(** The volume assertion of [dissolve_oil] on one row. *)
Definition volumes_close (s : Substance) (m : list float) : bool :=
  let vol := zip_with PrimFloat.div m (component_density s) in
  let arom := aromatics_mask s in
  np_isclose
    (np_sum (zip_with (fun v b => v * of_bool b)%float vol arom)
     + np_sum (zip_with (fun v b => v * of_bool b)%float vol
                 (map (xorb true) arom)))%float
    (np_sum vol).

(** A bundle on which [dissolve_oil] raises nothing: consistent shapes and
    a volume assertion that holds on every row. *)
Definition bundle_ok (s : Substance) (d : Data) : Prop :=
  shapes_ok s d /\
  Forall (fun m => volumes_close s m = true) (mass_components d).

(** A result that is not an exception. *)
Definition is_Ok {A} (r : result A) : Prop := exists a, r = Ok a.

(** The provider has a water object and answers the four queries of a
    step at the model time. *)
Definition provider_answers (wv : Waves) (model_time : Z) : Prop :=
  (exists w, water wv = Some w /\ is_Ok (get_density w)) /\
  is_Ok (peak_wave_period wv model_time) /\
  is_Ok (wave_height wv model_time) /\
  is_Ok (wind_speed wv model_time).

(** The physical models answer: the phase-transfer velocity on every
    positive droplet size, the two fractions on every input. *)
Definition models_answer (phys : PhysicalModels) : Prop :=
  (forall delta_rho size,
      (0 <? size)%float = true ->
      is_Ok (Stokes_water_phase_xfer_velocity phys delta_rho size)) /\
  (forall wind period,
      is_Ok (DelvigneSweeney_breaking_waves_frac phys wind period)) /\
  (forall f_bw period height k_w,
      is_Ok (DingFarmer_water_column_time_fraction phys
               f_bw period height k_w)).

Definition droplets_positive (d : Data) : Prop :=
  Forall (fun size => (0 <? size)%float = true) (droplet_avg_size d).

(** A weatherer, a model time and a container on which a step raises
    nothing: the wave provider is set and answers at the model time, the
    physical models answer, the ledger key exists, and every bundle is in
    order and has positive droplet sizes. *)
Definition step_ready (phys : PhysicalModels) (self : Dissolution)
    (model_time : Z) (sc : SpillContainer) : Prop :=
  (exists wv, waves self = Some wv /\ provider_answers wv model_time) /\
  models_answer phys /\
  is_Some (ledger sc) /\
  Forall (fun sd : Substance * Data =>
            bundle_ok (fst sd) (snd sd) /\ droplets_positive (snd sd))
    (substance_data sc).

(** ** Concrete inputs *)

(** Stand-ins for the physical models, used where a statement is run on a
    concrete input. *)
Definition stand_in_models : PhysicalModels :=
  {| LeeHuibers_partition_coeff := fun mol_wt rho => 1000%float;
     Stokes_water_phase_xfer_velocity :=
       fun delta_rho size =>
         if (0 <? size)%float then Ok (delta_rho * size * size)%float
         else Raise ValueError;
     DelvigneSweeney_breaking_waves_frac :=
       fun wind period => Ok 0.25%float;
     DingFarmer_water_column_time_fraction :=
       fun f_bw period height k_w => Ok 0.5%float;
     float_pow := fun x y => x |}.

(** The scenario of the specification: two components (one aromatic of
    molecular weight 178, one not of molecular weight 300, 50 kg each), one
    element with a droplet size of 5e-5 m, water of 1025 kg/m3, oil of
    900 kg/m3, wind 8 m/s, waves of 1.2 m and 6 s, a step of 900 s. *)
Definition scenario_waves : Waves :=
  {| water := Some {| get_density := Ok 1025%float |};
     peak_wave_period := fun _ => Ok 6%float;
     wave_height := fun _ => Ok 1.2%float;
     wind_speed := fun _ => Ok 8%float |}.

Definition scenario_self : Dissolution :=
  {| on := true; active := true;
     active_start := None; active_stop := None;
     waves := Some scenario_waves |}.

Definition scenario_substance : Substance :=
  {| name := "oil";
     sara_type := ["Aromatics"; "Saturates"]%string;
     molecular_weight := [178; 300]%float;
     component_density := [900; 900]%float |}.

Definition scenario_data : Data :=
  {| mass := [100%float];
     mass_components := [[50; 50]%float];
     density := [900%float];
     viscosity := [0.0001%float];
     partition_coeff := [0%float];
     droplet_avg_size := [5e-5%float];
     spill_num := [0%Z] |}.

Definition scenario_sc : SpillContainer :=
  {| num_released := 1;
     mass_balance := {["dissolution"%string := 0%float]};
     substance_data := [(scenario_substance, scenario_data)] |}.

Definition scenario_time_step : float := 900%float.

(** One element whose row and total mass are replaced. *)
Definition with_row (row : list float) (total : float) : SpillContainer :=
  {| num_released := 1;
     mass_balance := {["dissolution"%string := 0%float]};
     substance_data :=
       [(scenario_substance,
         set_masses scenario_data [row] [total])] |}.

(** The weatherer as the constructor leaves it when no [waves] is given. *)
Definition self_no_waves : Dissolution :=
  {| on := true; active := true;
     active_start := None; active_stop := None;
     waves := None |}.

(** On, but outside the active time window. *)
Definition self_outside_window : Dissolution :=
  {| on := true; active := false;
     active_start := Some 3600%Z; active_stop := Some 7200%Z;
     waves := Some scenario_waves |}.

Definition self_off : Dissolution :=
  {| on := false; active := false;
     active_start := None; active_stop := None;
     waves := Some scenario_waves |}.

(** Five elements of one substance, three of which carry the sentinel
    partition coefficient. *)
Definition five_rows_data : Data :=
  {| mass := [100; 100; 100; 100; 100]%float;
     mass_components := [[50; 50]; [50; 50]; [50; 50]; [50; 50]; [50; 50]]%float;
     density := [900; 900; 900; 900; 900]%float;
     viscosity := [0.0001; 0.0001; 0.0001; 0.0001; 0.0001]%float;
     partition_coeff := [0; 0; 0; 627.5; 627.5]%float;
     droplet_avg_size := [5e-5; 5e-5; 5e-5; 5e-5; 5e-5]%float;
     spill_num := [0; 0; 0; 0; 0]%Z |}.

Definition five_rows_sc : SpillContainer :=
  {| num_released := 5;
     mass_balance := {["dissolution"%string := 0%float]};
     substance_data := [(scenario_substance, five_rows_data)] |}.

(** One element whose recorded total mass (5) is not the sum of its
    component masses (1 + 2). *)
Definition skewed_sc : SpillContainer := with_row [1; 2]%float 5%float.

(** A bundle without elements. *)
Definition empty_data : Data :=
  {| mass := []; mass_components := []; density := []; viscosity := [];
     partition_coeff := []; droplet_avg_size := []; spill_num := [] |}.

(** All rows of a container, over all its bundles. *)
Definition total_rows (sds : list (Substance * Data)) : nat :=
  sum_list (map (fun sd : Substance * Data =>
                   length (partition_coeff (snd sd))) sds).

(** What [_initialize_k_ow] may do to a [partition_coeff] array under a
    mask: keep an entry, or store [0.0] where the mask is set. *)
Definition zeroed_under (mask : list bool) (pc pc' : list float) : Prop :=
  length pc' = length pc /\
  forall i, pc' !! i = pc !! i \/
            (mask !! i = Some true /\ pc' !! i = Some 0%float).

(** What [initialize_data] may do to a bundle: only [partition_coeff]
    changes, and only from a value equal to zero to [0.0]. *)
Definition initialized (sd sd' : Substance * Data) : Prop :=
  fst sd' = fst sd /\
  exists pc, snd sd' = set_partition_coeff (snd sd) pc /\
             same_but_zeros (partition_coeff (snd sd)) pc.

(** The scenario's element with a negative zero as partition coefficient. *)
Definition neg_zero_sc : SpillContainer :=
  {| num_released := 1;
     mass_balance := {["dissolution"%string := 0%float]};
     substance_data :=
       [(scenario_substance,
         set_partition_coeff scenario_data [(-0)%float])] |}.

(** The arrays of a container, bundle by bundle. *)
Definition masses_of (sc : SpillContainer) : list (list float) :=
  map (fun sd : Substance * Data => mass (snd sd)) (substance_data sc).

Definition components_of (sc : SpillContainer) : list (list (list float)) :=
  map (fun sd : Substance * Data => mass_components (snd sd))
    (substance_data sc).

Definition partition_coeffs_of (sc : SpillContainer) : list (list float) :=
  map (fun sd : Substance * Data => partition_coeff (snd sd))
    (substance_data sc).

(** One element whose total mass (1) is within the tolerance of the sum of
    its row, and the released mass that it is checked against. *)
Definition drifted_sc : SpillContainer :=
  with_row [0.5; 0.5000000009]%float 1%float.

Definition drifted_released : float := 0.9999999991%float.


(** ** Notions used in the further properties *)

(** The queries that [dissolve_oil] sends for one element, in the order of
    the calls: the water density, then, from [water_column_time_fraction],
    the peak wave period, the wave height and the wind speed. *)
Definition element_queries (model_time : Z) : list env_query :=
  [WaterDensity; PeakWavePeriod model_time; WaveHeight model_time;
   WindSpeed model_time].

(** The rows that the loop of [dissolve_oil] goes through:
    [zip(fmass, droplet_avg_size)] stops at the shorter array. *)
Definition element_rows (d : Data) : nat :=
  length (zip (mass_components d) (droplet_avg_size d)).

Definition bundle_queries (model_time : Z) (sd : Substance * Data)
  : list env_query :=
  if decide (mass (snd sd) = []) then []
  else concat (replicate (element_rows (snd sd)) (element_queries model_time)).

Definition step_queries (self : Dissolution) (sc : SpillContainer)
    (model_time : Z) : list env_query :=
  if negb (active self) then []
  else if decide (num_released sc = 0%nat) then []
  else concat (map (bundle_queries model_time) (substance_data sc)).

(** The containers that a sequence of completed [initialize_data] calls and
    completed [weather_elements] steps can lead to, whatever the claimed
    counts, the time steps, the model times and the query logs, and
    whatever the weatherer is at each call: [prepare_for_model_step] sets
    [active] anew before every step, so the flags (and here also the
    window and the provider) may differ from one call to the next. *)
Inductive reachable (phys : PhysicalModels)
  : SpillContainer -> SpillContainer -> Prop :=
  | reach_here sc : reachable phys sc sc
  | reach_initialize self sc sc1 sc2 released :
      reachable phys sc sc1 ->
      initialize_data self sc1 released = Ok sc2 ->
      reachable phys sc sc2
  | reach_weather self sc sc1 sc2 time_step model_time log log' :
      reachable phys sc sc1 ->
      weather_elements phys self sc1 time_step model_time log
        = Ok (sc2, log') ->
      reachable phys sc sc2.

(** A partition coefficient as [_initialize_k_ow] leaves it: [0.0] where it
    compared equal to zero. *)
Definition reset_sentinel (k : float) : float :=
  if (k =? 0)%float then 0%float else k.

Definition reset_sentinels (sd : Substance * Data) : Substance * Data :=
  (fst sd,
   set_partition_coeff (snd sd) (map reset_sentinel (partition_coeff (snd sd)))).

(** A bundle whose [spill_num] array is as long as its [partition_coeff]
    array, or that has no row at all. *)
Definition spill_shape_ok (sd : Substance * Data) : Prop :=
  partition_coeff (snd sd) <> [] ->
  length (spill_num (snd sd)) = length (partition_coeff (snd sd)).

(** The arrays of a bundle that no method of the weatherer writes to. *)
Definition same_frame (d d' : Data) : Prop :=
  mass_components d' = mass_components d /\
  density d' = density d /\
  viscosity d' = viscosity d /\
  droplet_avg_size d' = droplet_avg_size d /\
  spill_num d' = spill_num d /\
  length (partition_coeff d') = length (partition_coeff d).

(** Specification-level values that compare [<= 0] or are NaN: what is
    left when a value is not positive. *)
Definition SFnot_pos (x : spec_float) : Prop :=
  match x with
  | S754_infinity s | S754_finite s _ _ => s = true
  | S754_zero _ | S754_nan => True
  end.

(** Specification-level values with the sign [s] that are not NaN, zeros
    of either sign included. *)
Definition SFsigned (s : bool) (x : spec_float) : Prop :=
  match x with
  | S754_zero _ => True
  | S754_infinity s' | S754_finite s' _ _ => s' = s
  | S754_nan => False
  end.


(** What every method of the weatherer keeps of a bundle: the substance
    and the arrays of [same_frame]. *)
Definition bundle_frame (sd sd' : Substance * Data) : Prop :=
  fst sd' = fst sd /\ same_frame (snd sd) (snd sd').

(** A bundle as the element store hands it out: consistent shapes, and one
    total mass per row. *)
Definition rows_aligned (sd : Substance * Data) : Prop :=
  shapes_ok (fst sd) (snd sd) /\
  length (mass (snd sd)) = length (mass_components (snd sd)).

(** The scenario's container before [prepare_for_model_run]: the ledger
    has no entry for the process. *)
Definition unprepared_sc : SpillContainer :=
  {| num_released := 1;
     mass_balance := ∅;
     substance_data := [(scenario_substance, scenario_data)] |}.



(** A weatherer with another wave provider: still water and no wind. *)
Definition calm_self : Dissolution :=
  {| on := true; active := true;
     active_start := None; active_stop := None;
     waves := Some {| water := Some {| get_density := Ok 1000%float |};
                      peak_wave_period := fun _ => Ok 1%float;
                      wave_height := fun _ => Ok 0%float;
                      wind_speed := fun _ => Ok 0%float |} |}.

(** Other stand-ins for the physical models, with the partition values of
    [stand_in_models]. *)
Definition other_models : PhysicalModels :=
  {| LeeHuibers_partition_coeff := fun mol_wt rho => 1000%float;
     Stokes_water_phase_xfer_velocity := fun delta_rho size => Ok 1%float;
     DelvigneSweeney_breaking_waves_frac := fun wind period => Ok 1%float;
     DingFarmer_water_column_time_fraction :=
       fun f_bw period height k_w => Ok 1%float;
     float_pow := fun x y => y |}.

(** Two elements with one droplet size between them: the loop of
    [dissolve_oil] goes through one row. *)
Definition short_droplets_data : Data :=
  {| mass := [100; 100]%float;
     mass_components := [[50; 50]; [50; 50]]%float;
     density := [900; 900]%float;
     viscosity := [0.0001; 0.0001]%float;
     partition_coeff := [0; 7]%float;
     droplet_avg_size := [5e-5%float];
     spill_num := [0; 0]%Z |}.





(** The mantissa of [1.0]. *)
Definition two52 : positive := 4503599627370496.

(** Specification-level values that compare [>= 0]: both zeros, positive
    numbers and [+inf]. *)
Definition SFnonneg (x : spec_float) : Prop :=
  match x with
  | S754_zero _ => True
  | S754_infinity s | S754_finite s _ _ => s = false
  | S754_nan => False
  end.

(** * Facts about binary64 arithmetic

    Derived from the specification of the primitive operations
    ([FloatAxioms]) over [SpecFloat]. *)

Section Binary64.
Local Open Scope float_scope.

Lemma digits2_pos_shift52 (m : positive) :
  Zpos (digits2_pos (two52 * m)) = (Zpos (digits2_pos m) + 52)%Z.
Proof.
  change (two52 * m)%positive with (Pos.iter xO m 52%positive).
  cbn [Pos.iter digits2_pos]. lia.
Qed.

Lemma shr_1_52 (m : positive) :
  SpecFloat.iter_pos shr_1 52 (Build_shr_record (Zpos (two52 * m)) false false)
  = Build_shr_record (Zpos m) false false.
Proof.
  change (two52 * m)%positive with (Pos.iter xO m 52%positive).
  reflexivity.
Qed.

Lemma bounded_canonical m e :
  bounded prec emax m e = true ->
  fexp prec emax (Zpos (digits2_pos m) + e) = e /\ (e <= emax - prec)%Z.
Proof.
  unfold bounded, canonical_mantissa. intros H.
  apply andb_true_iff in H as [H1 H2].
  apply Z.eqb_eq in H1. apply Z.leb_le in H2. auto.
Qed.

Lemma SFmul_one_l (x : spec_float) :
  valid_binary x = true -> SF64mul (Prim2SF 1) x = x.
Proof.
  intros V. change (Prim2SF 1) with (S754_finite false two52 (-52)).
  destruct x as [s|s| |s m e]; try reflexivity.
  cbn [valid_binary SpecFloat.valid_binary] in V.
  apply bounded_canonical in V as [C B].
  unfold SF64mul, SFmul. cbn [xorb].
  unfold binary_round_aux.
  unfold shr_fexp at 1. cbn [Zdigits2].
  rewrite digits2_pos_shift52.
  replace (Z.pos (digits2_pos m) + 52 + (-52 + e))%Z
    with (Z.pos (digits2_pos m) + e)%Z by lia.
  rewrite C.
  replace (e - (-52 + e))%Z with 52%Z by lia.
  cbn [shr_record_of_loc shr]. rewrite shr_1_52.
  cbn [shr_m loc_of_shr_record round_nearest_even].
  unfold shr_fexp. cbn [Zdigits2].
  replace (-52 + e + 52)%Z with e by lia. rewrite C, Z.sub_diag.
  cbn [shr shr_record_of_loc shr_m].
  apply Z.leb_le in B. rewrite B. reflexivity.
Qed.

(** Multiplying by [1.0] is exact. *)
Lemma mul_one_l (x : float) : 1 * x = x.
Proof.
  apply Prim2SF_inj. rewrite FloatAxioms.mul_spec. apply SFmul_one_l, Prim2SF_valid.
Qed.

(** Adding [0.0] changes nothing but the sign of a negative zero. *)
Lemma add_zero_r (x : float) : x + 0 = x \/ (x = (-0)%float /\ x + 0 = 0).
Proof.
  destruct (Prim2SF x) as [s|s| |s m e] eqn:E.
  - destruct s.
    + right. assert (x = (-0)%float) as -> by (apply Prim2SF_inj; now rewrite E).
      split; reflexivity.
    + left. apply Prim2SF_inj. rewrite FloatAxioms.add_spec, E. reflexivity.
  - left. apply Prim2SF_inj. rewrite FloatAxioms.add_spec, E. reflexivity.
  - left. apply Prim2SF_inj. rewrite FloatAxioms.add_spec, E. reflexivity.
  - left. apply Prim2SF_inj. rewrite FloatAxioms.add_spec, E. reflexivity.
Qed.

Lemma zero_div_pos (s : float) : (0 <? s) = true -> 0 / s = 0.
Proof.
  rewrite FloatAxioms.ltb_spec. change (Prim2SF 0) with (S754_zero false). intros H.
  apply Prim2SF_inj. rewrite FloatAxioms.div_spec.
  change (Prim2SF 0) with (S754_zero false).
  destruct (Prim2SF s) as [b|b| |b m e]; try discriminate;
    destruct b; try discriminate; reflexivity.
Qed.

Lemma SFeqb_refl x : x <> S754_nan -> SFeqb x x = true.
Proof.
  destruct x as [s|s| |s m e]; try (now destruct s); try congruence.
  intros _. unfold SFeqb, SFcompare.
  rewrite Z.compare_refl, Pos.compare_cont_refl. now destruct s.
Qed.

Lemma is_finite_spec (x : float) :
  is_finite x = match Prim2SF x with
                | S754_zero _ | S754_finite _ _ _ => true
                | _ => false
                end.
Proof.
  unfold is_finite, is_nan, is_infinity.
  rewrite !FloatAxioms.eqb_spec, FloatAxioms.abs_spec.
  change (Prim2SF infinity) with (S754_infinity false).
  destruct (Prim2SF x) as [s|s| |s m e] eqn:E; try reflexivity.
  - now destruct s.
  - rewrite SFeqb_refl by discriminate. reflexivity.
Qed.

Lemma SFnonneg_leb x : SFnonneg x <-> SFleb (S754_zero false) x = true.
Proof.
  destruct x as [s|s| |s m e]; cbn; try tauto;
    try (destruct s; intuition congruence).
  intuition congruence.
Qed.

Lemma nonneg_spec (x : float) : nonneg x = true <-> SFnonneg (Prim2SF x).
Proof.
  unfold nonneg. rewrite FloatAxioms.leb_spec, SFnonneg_leb. reflexivity.
Qed.

Lemma shr_1_nonneg mrs : (0 <= shr_m mrs)%Z -> (0 <= shr_m (shr_1 mrs))%Z.
Proof.
  destruct mrs as [m r s]. cbn [shr_m].
  destruct m as [|p|p]; [reflexivity| |lia].
  destruct p; cbn; lia.
Qed.

Lemma iter_pos_preserves {A} (P : A -> Prop) (f : A -> A) :
  (forall a, P a -> P (f a)) -> forall p a, P a -> P (SpecFloat.iter_pos f p a).
Proof.
  intros Hf. induction p; intros a Ha; cbn; auto.
Qed.

Lemma shr_nonneg mrs e n :
  (0 <= shr_m mrs)%Z -> (0 <= shr_m (fst (shr mrs e n)))%Z.
Proof.
  intros H. destruct n; cbn; auto.
  apply (iter_pos_preserves (fun r => (0 <= shr_m r)%Z));
    auto using shr_1_nonneg.
Qed.

Lemma shr_record_of_loc_m m l : shr_m (shr_record_of_loc m l) = m.
Proof. destruct l as [|[]]; reflexivity. Qed.

Lemma round_nearest_even_nonneg m l :
  (0 <= m)%Z -> (0 <= round_nearest_even m l)%Z.
Proof.
  intros H. destruct l as [|[]]; cbn; try lia. destruct (Z.even m); lia.
Qed.

(** Rounding a non-negative mantissa with a positive sign bit never gives
    a negative number or NaN. *)
Lemma binary_round_aux_nonneg mx ex lx :
  (0 <= mx)%Z -> SFnonneg (binary_round_aux prec emax false mx ex lx).
Proof.
  intros H. unfold binary_round_aux, shr_fexp.
  destruct (shr (shr_record_of_loc mx lx) ex _) as [mrs' e'] eqn:E1.
  assert (H1 : (0 <= shr_m mrs')%Z).
  { change mrs' with (fst (mrs', e')). rewrite <- E1. apply shr_nonneg.
    now rewrite shr_record_of_loc_m. }
  destruct (shr (shr_record_of_loc _ loc_Exact) e' _)
    as [mrs'' e''] eqn:E2.
  assert (H2 : (0 <= shr_m mrs'')%Z).
  { change mrs'' with (fst (mrs'', e'')). rewrite <- E2. apply shr_nonneg.
    rewrite shr_record_of_loc_m. now apply round_nearest_even_nonneg. }
  destruct (shr_m mrs'') as [|p|p]; [exact I| |lia].
  destruct (e'' <=? emax - prec)%Z; reflexivity.
Qed.

Lemma SFadd_nonneg x y :
  SFnonneg x -> SFnonneg y -> SFnonneg (SF64add x y).
Proof.
  destruct x as [sx|sx| |sx mx ex], y as [sy|sy| |sy my ey]; cbn;
    intros; subst; try tauto;
    try (destruct sx, sy; cbn; tauto); try reflexivity.
  cbn [cond_Zopp].
  set (a := (shl_align mx ex _).1). set (b := (shl_align my ey _).1).
  change (SFnonneg (SpecFloat.binary_round prec emax false (a + b)
                      (Z.min ex ey))).
  unfold SpecFloat.binary_round.
  destruct (shl_align (a + b) _ _) as [mz ez].
  apply binary_round_aux_nonneg. lia.
Qed.

(** The sum of two non-negative floats is non-negative. *)
Lemma add_nonneg (x y : float) :
  nonneg x = true -> nonneg y = true -> nonneg (x + y) = true.
Proof.
  rewrite !nonneg_spec, FloatAxioms.add_spec. apply SFadd_nonneg.
Qed.

Lemma sub_diag (x : float) : is_finite x = true -> x - x = 0.
Proof.
  rewrite is_finite_spec. intros H. apply Prim2SF_inj. rewrite FloatAxioms.sub_spec.
  change (Prim2SF 0) with (S754_zero false).
  destruct (Prim2SF x) as [s|s| |s m e]; try discriminate.
  - now destruct s.
  - unfold SF64sub, SFsub. rewrite Z.sub_diag. reflexivity.
Qed.




Lemma add_neg_zero_r (x : float) : x + (-0) = x.
Proof.
  apply Prim2SF_inj. rewrite FloatAxioms.add_spec.
  change (Prim2SF (-0)) with (S754_zero true).
  destruct (Prim2SF x) as [s|s| |s m e]; try reflexivity.
  now destruct s.
Qed.

Lemma add_zeros_cases k (v : float) :
  add_zeros k v = v \/ (v = (-0)%float /\ add_zeros k v = 0).
Proof.
  induction k as [|k IH]; [now left|].
  change (add_zeros (S k) v) with (add_zeros k v + 0).
  destruct IH as [->|[-> ->]].
  - destruct (add_zero_r v) as [->|[-> _]]; auto.
  - right. split; reflexivity.
Qed.


(** The sign of a zero does not matter to the tolerance check. *)
Lemma within_rel_tol_zero_sign (r : float) :
  within_rel_tol (-0) r = within_rel_tol 0 r.
Proof.
  unfold within_rel_tol.
  change (is_finite (-0)) with true. change (is_finite 0) with true.
  assert (E1 : abs (-0 - r) = abs (0 - r)).
  { apply Prim2SF_inj. rewrite !FloatAxioms.abs_spec, !FloatAxioms.sub_spec.
    change (Prim2SF (-0)) with (S754_zero true).
    change (Prim2SF 0) with (S754_zero false).
    destruct (Prim2SF r) as [s|s| |s m e]; try reflexivity. now destruct s. }
  assert (E2 : (-0 =? r) = (0 =? r)).
  { rewrite !FloatAxioms.eqb_spec.
    change (Prim2SF (-0)) with (S754_zero true).
    change (Prim2SF 0) with (S754_zero false).
    destruct (Prim2SF r) as [s|s| |s m e]; reflexivity. }
  now rewrite E1, E2.
Qed.

(** Adding [0.0] to the ledger entry any number of times leaves the
    accounting check as it was. *)
Lemma within_rel_tol_add_zeros k (t v r : float) :
  within_rel_tol (t + add_zeros k v) r = within_rel_tol (t + v) r.
Proof.
  destruct (add_zeros_cases k v) as [->|[-> ->]]; [reflexivity|].
  rewrite add_neg_zero_r.
  destruct (add_zero_r t) as [->|[-> ->]]; [reflexivity|].
  symmetry. apply within_rel_tol_zero_sign.
Qed.

(** ** The order of the additions of [np.sum]

    A relation that additions preserve holds between the sums of two runs
    whose entries it relates, whatever the grouping. *)
Lemma foldl_add_rel (R : float -> float -> Prop) a a' :
  (forall x x' y y', R x x' -> R y y' -> R (x + y) (x' + y')) ->
  Forall2 R a a' -> forall r r', R r r' ->
  R (foldl PrimFloat.add r a) (foldl PrimFloat.add r' a').
Proof.
  intros Hadd. induction 1; intros r r' Hr; cbn; auto.
Qed.

Lemma pairwise_block_rel (R : float -> float -> Prop) n :
  (forall x x' y y', R x x' -> R y y' -> R (x + y) (x' + y')) ->
  forall a a',
    (length a <= n)%nat -> Forall2 R a a' ->
    forall r0 r0' r1 r1' r2 r2' r3 r3' r4 r4' r5 r5' r6 r6' r7 r7',
      R r0 r0' -> R r1 r1' -> R r2 r2' -> R r3 r3' ->
      R r4 r4' -> R r5 r5' -> R r6 r6' -> R r7 r7' ->
      R (pairwise_block r0 r1 r2 r3 r4 r5 r6 r7 a)
        (pairwise_block r0' r1' r2' r3' r4' r5' r6' r7' a').
Proof.
  intros Hadd.
  induction n as [|n IH]; intros a a' Hlen HF;
    intros r0 r0' r1 r1' r2 r2' r3 r3' r4 r4' r5 r5' r6 r6' r7 r7'
      H0 H1 H2 H3 H4 H5 H6 H7.
  - destruct HF; [|cbn in Hlen; lia]. cbn. auto 10.
  - do 8 (destruct HF as [|? ? ? ? ? HF];
          [cbn [pairwise_block]; apply foldl_add_rel; auto 10|]).
    cbn [pairwise_block]. apply IH; auto.
    cbn [length] in Hlen. lia.
Qed.

Lemma pairwise_split_lengths (n : nat) :
  (128 < n)%nat ->
  let n2 := (n / 2 - (n / 2) mod 8)%nat in
  (0 < n2 < n)%nat.
Proof.
  intros H n2. unfold n2.
  pose proof (Nat.mod_upper_bound (n / 2) 8).
  pose proof (Nat.div_lt n 2). 
  assert (64 <= n / 2)%nat by (apply Nat.div_le_lower_bound; lia).
  lia.
Qed.

Lemma pairwise_sum_fuel_rel (R : float -> float -> Prop) fuel :
  (forall x x' y y', R x x' -> R y y' -> R (x + y) (x' + y')) ->
  (forall x x', R x x' -> R (0 + x) (0 + x')) ->
  forall a a',
    Forall2 R a a' -> a <> [] ->
    R (pairwise_sum_fuel fuel a) (pairwise_sum_fuel fuel a').
Proof.
  intros Hadd Hseed.
  assert (Hshort : forall a a', Forall2 R a a' -> a <> [] ->
            R (foldl PrimFloat.add 0 a) (foldl PrimFloat.add 0 a')).
  { intros a a' [|x x' l l' Hx Hl] Hne; [contradiction|].
    cbn [foldl]. apply foldl_add_rel; auto. }
  assert (Hblock : forall a a', Forall2 R a a' ->
            match a, a' with
            | a0 :: a1 :: a2 :: a3 :: a4 :: a5 :: a6 :: a7 :: rest,
              b0 :: b1 :: b2 :: b3 :: b4 :: b5 :: b6 :: b7 :: rest' =>
                R (pairwise_block a0 a1 a2 a3 a4 a5 a6 a7 rest)
                  (pairwise_block b0 b1 b2 b3 b4 b5 b6 b7 rest')
            | _, _ => True
            end).
  { intros a a' HF.
    do 8 (destruct HF as [|? ? ? ? ? HF]; [exact I|]).
    eapply pairwise_block_rel; eauto. }
  induction fuel as [|fuel IH]; intros a a' HF Hne.
  - pose proof (Hblock a a' HF) as Hb. pose proof (Hshort a a' HF Hne) as Hs.
    do 8 (destruct HF as [|? ? ? ? ? HF]; [exact Hs|]). exact Hb.
  - pose proof (Hblock a a' HF) as Hb. pose proof (Hshort a a' HF Hne) as Hs.
    pose proof (Forall2_length _ _ _ HF) as Hlen.
    pose proof (Forall2_take _ _ _ (length a / 2 - (length a / 2) mod 8) HF) as Ht.
    pose proof (Forall2_drop _ _ _ (length a / 2 - (length a / 2) mod 8) HF) as Hd.
    do 8 (destruct HF as [|? ? ? ? ? HF]; [exact Hs|]).
    cbn [pairwise_sum_fuel]. rewrite <- Hlen.
    match goal with |- context [(length ?l <=? 128)%nat] =>
      set (a0 := l) in *; destruct (Nat.leb_spec (length a0) 128) as [Hle|Hgt]
    end; [exact Hb|].
    cbv zeta.
    destruct (pairwise_split_lengths (length a0) Hgt) as [Hpos Hlt].
    apply Hadd; apply IH; try assumption.
    + intros E. apply (f_equal length) in E. rewrite length_take in E.
      cbn [length] in E. lia.
    + intros E. apply (f_equal length) in E. rewrite length_drop in E.
      cbn [length] in E. lia.
Qed.

Lemma pairwise_sum_fuel_enough f1 :
  forall f2 a,
    (length a <= f1)%nat -> (length a <= f2)%nat ->
    pairwise_sum_fuel f1 a = pairwise_sum_fuel f2 a.
Proof.
  induction f1 as [|f1 IH]; intros f2 a H1 H2.
  - destruct a; [|cbn in H1; lia]. now destruct f2.
  - destruct f2 as [|f2].
    { destruct a; [reflexivity|cbn in H2; lia]. }
    do 8 (destruct a as [|? a]; [reflexivity|]).
    cbn [pairwise_sum_fuel].
    match goal with |- context [(length ?l <=? 128)%nat] =>
      set (a0 := l) in *; destruct (Nat.leb_spec (length a0) 128) as [Hle|Hgt]
    end; [reflexivity|].
    cbv zeta.
    destruct (pairwise_split_lengths (length a0) Hgt) as [Hpos Hlt].
    f_equal; apply IH; rewrite ?length_take, ?length_drop; lia.
Qed.

Lemma np_sum_rel (R : float -> float -> Prop) a a' :
  (forall x x' y y', R x x' -> R y y' -> R (x + y) (x' + y')) ->
  R 0 0 -> Forall2 R a a' -> R (np_sum a) (np_sum a').
Proof.
  intros Hadd H0 HF. unfold np_sum, pairwise_sum.
  rewrite <- (Forall2_length _ _ _ HF).
  apply Hadd; [exact H0|].
  destruct a as [|x a].
  - inversion HF; subst. exact H0.
  - apply pairwise_sum_fuel_rel; auto.
Qed.

Lemma np_sum_rel_nonempty (R : float -> float -> Prop) a a' :
  (forall x x' y y', R x x' -> R y y' -> R (x + y) (x' + y')) ->
  (forall x x', R x x' -> R (0 + x) (0 + x')) ->
  Forall2 R a a' -> a <> [] -> R (np_sum a) (np_sum a').
Proof.
  intros Hadd Hseed HF Hne. unfold np_sum, pairwise_sum.
  rewrite <- (Forall2_length _ _ _ HF).
  apply Hseed. apply pairwise_sum_fuel_rel; auto.
Qed.

Lemma np_sum_closed (P : float -> Prop) a :
  (forall x y, P x -> P y -> P (x + y)) ->
  P 0 -> Forall P a -> P (np_sum a).
Proof.
  intros Hadd H0 HF.
  assert (HF2 : Forall2 (fun x _ : float => P x) a a)
    by (induction HF; constructor; auto).
  apply (np_sum_rel (fun x _ => P x) a a); auto.
Qed.

Lemma np_sum_closed_nonempty (P : float -> Prop) a :
  (forall x y, P x -> P y -> P (x + y)) ->
  (forall x, P x -> P (0 + x)) ->
  Forall P a -> a <> [] -> P (np_sum a).
Proof.
  intros Hadd Hseed HF Hne.
  assert (HF2 : Forall2 (fun x _ : float => P x) a a)
    by (clear Hne; induction HF; constructor; auto).
  apply (np_sum_rel_nonempty (fun x _ => P x) a a); auto.
Qed.

Lemma np_sum_nonneg (l : list float) :
  Forall (fun x => nonneg x = true) l -> nonneg (np_sum l) = true.
Proof.
  apply (np_sum_closed (fun x => nonneg x = true)); [|reflexivity].
  intros x y. apply add_nonneg.
Qed.

Lemma np_sum_all_zero (l : list float) :
  Forall (fun x => x = 0) l -> np_sum l = 0.
Proof.
  apply (np_sum_closed (fun x => x = 0)); [|reflexivity].
  now intros x y -> ->.
Qed.
(** ** Zeros of either sign *)








End Binary64.

(** * Facts about the effect monad and the array helpers *)

Section MonadFacts.
Lemma bind_Ok {A B} (m : M A) (k : A -> M B) log r :
  bind m k log = Ok r ->
  exists a log1, m log = Ok (a, log1) /\ k a log1 = Ok r.
Proof.
  unfold bind. destruct (m log) as [[a log1]|e]; [|discriminate].
  intros H. eauto.
Qed.

Lemma bind_Ok_intro {A B} (m : M A) (k : A -> M B) log a log1 :
  m log = Ok (a, log1) -> bind m k log = k a log1.
Proof. unfold bind. now intros ->. Qed.

Lemma lift_Ok {A} (r : result A) log a log' :
  lift r log = Ok (a, log') -> r = Ok a /\ log' = log.
Proof. destruct r; cbn; intros H; inversion H; auto. Qed.

Lemma assert_Ok b log u log' :
  assert_ b log = Ok (u, log') -> b = true /\ log' = log.
Proof. destruct b; cbn; intros H; inversion H; auto. Qed.

Lemma ret_Ok {A} (a b : A) log log' :
  ret a log = Ok (b, log') -> b = a /\ log' = log.
Proof. cbn. intros H; inversion H; auto. Qed.

Lemma broadcast_same_length {A B C} (f : A -> B -> C) a b :
  length a = length b -> broadcast f a b = Ok (zip_with f a b).
Proof. intros H. unfold broadcast. now rewrite decide_True. Qed.

Lemma broadcast_length {A B C} (f : A -> B -> C) a b c :
  broadcast f a b = Ok c ->
  length c = length a \/ length c = length b.
Proof.
  unfold broadcast. destruct (decide _) as [E|E].
  - intros [= <-]. left. rewrite length_zip_with_l_eq; auto.
  - destruct a as [|x [|y a]], b as [|z [|w b]]; intros [= <-]; cbn;
      rewrite ?length_map; auto.
Qed.

Lemma set_item_Ok {A} (a : list A) idx v a' :
  set_item a idx v = Ok a' -> idx < length a /\ a' = <[idx := v]> a.
Proof.
  unfold set_item. destruct (decide _); intros [= <-]; auto.
Qed.

Lemma mask_assign_Ok {A} (a : list A) mask v a' :
  mask_assign a mask v = Ok a' ->
  length a = length mask /\
  a' = zip_with (fun x (b : bool) => if b then v else x) a mask.
Proof.
  unfold mask_assign. destruct (decide _); intros [= <-]; auto.
Qed.
End MonadFacts.

(** Splits a successful monadic computation into its successful steps. *)
Ltac monad_inv H :=
  match type of H with
  | bind _ _ _ = Ok _ =>
      let a := fresh "a" in
      let l := fresh "log" in
      let H1 := fresh "Hstep" in
      apply bind_Ok in H as (a & l & H1 & H);
      monad_inv H1; monad_inv H
  | lift _ _ = Ok _ =>
      let E := fresh "Hlog" in
      apply lift_Ok in H as [H E]; try subst
  | assert_ _ _ = Ok _ =>
      let E := fresh "Hlog" in
      apply assert_Ok in H as [H E]; try subst
  | ret _ _ = Ok _ =>
      let E := fresh "Hlog" in
      apply ret_Ok in H as [H E]; try subst
  | _ => idtac
  end.

(** * What a step computes *)

Section StepFacts.
Context (phys : PhysicalModels) (self : Dissolution).
Local Open Scope float_scope.

Lemma np_sum_zeros n : np_sum (np_zeros n) = 0.
Proof.
  apply np_sum_all_zero. unfold np_zeros. apply Forall_replicate.
  reflexivity.
Qed.

Lemma diss_mass_frac_zero s : diss_mass_frac 0 s = 0.
Proof.
  unfold diss_mass_frac. destruct (0 <? s) eqn:E; [|reflexivity].
  rewrite (zero_div_pos s E). reflexivity.
Qed.

Lemma scale_by_one (mc : list (list float)) :
  map (map (PrimFloat.mul (1 - 0))) mc = mc.
Proof.
  change (1 - 0) with 1.
  induction mc as [|row mc IH]; [reflexivity|]. cbn [map]. rewrite IH. f_equal.
  induction row as [|x row IHr]; [reflexivity|].
  cbn [map]. now rewrite mul_one_l, IHr.
Qed.

(** The loop body of [dissolve_oil] stores the element's overall
    coefficient at its index and touches no other entry. *)
Lemma dissolve_element_Ok s am nam kc mt ts pc idx m ds log pc' md log' :
  dissolve_element phys self s am nam kc mt ts pc idx m ds log
    = Ok ((pc', md), log') ->
  exists K, overall_K_ow m kc (molecular_weight s) = Ok K /\
            (idx < length pc)%nat /\ pc' = <[idx := K]> pc.
Proof.
  intros H. unfold dissolve_element in H.
  apply bind_Ok in H as (K & l1 & HK & H). monad_inv HK.
  apply bind_Ok in H as (pc1 & l2 & Hpc & H). monad_inv Hpc.
  apply set_item_Ok in Hpc as [Hlt ->].
  exists K. split; [assumption|]. split; [assumption|].
  monad_inv H. now inversion H.
Qed.

Lemma dissolve_rows_Ok s am nam kc mt ts rows :
  forall pc idx log pc' log',
    dissolve_rows phys self s am nam kc mt ts pc idx rows log
      = Ok (pc', log') ->
    length pc' = length pc /\
    (forall j, (j < idx)%nat -> pc' !! j = pc !! j) /\
    (forall j, (idx + length rows <= j)%nat -> pc' !! j = pc !! j) /\
    (forall i m ds, rows !! i = Some (m, ds) ->
       exists K, overall_K_ow m kc (molecular_weight s) = Ok K /\
                 pc' !! (idx + i)%nat = Some K).
Proof.
  induction rows as [|[m ds] rows IH]; intros pc idx log pc' log' H.
  - cbn in H. inversion H; subst. repeat split; auto.
    intros i m ds Hi. discriminate.
  - cbn [dissolve_rows] in H.
    apply bind_Ok in H as ([pc1 md] & l1 & He & H).
    apply dissolve_element_Ok in He as (K & HK & Hlt & ->).
    cbn [fst] in H. apply IH in H as (Hlen & Hlow & Hhigh & Hrows).
    rewrite length_insert in Hlen.
    split; [assumption|]. split; [|split].
    + intros j Hj. rewrite Hlow by lia.
      apply list_lookup_insert_ne. lia.
    + intros j Hj. cbn [length] in Hj. rewrite Hhigh by lia.
      apply list_lookup_insert_ne. lia.
    + intros [|i] m' ds' Hi.
      * cbn in Hi. inversion Hi; subst. exists K. split; [assumption|].
        rewrite Nat.add_0_r, Hlow by lia.
        now apply list_lookup_insert_eq.
      * cbn in Hi. destruct (Hrows i m' ds' Hi) as (K' & HK' & Hl).
        exists K'. split; [assumption|].
        now replace (idx + S i)%nat with (S idx + i)%nat by lia.
Qed.

(** [dissolve_oil] returns zeros whatever it has computed, and rewrites
    only [partition_coeff]. *)
Lemma dissolve_oil_Ok d s mt ts log d' diss log' :
  dissolve_oil phys self d s mt ts log = Ok ((d', diss), log') ->
  diss = np_zeros (length (mass d)) /\
  exists pc, d' = set_partition_coeff d pc /\ stored_K_ow phys s d pc.
Proof.
  intros H. unfold dissolve_oil in H.
  apply bind_Ok in H as (u & l1 & _ & H).
  apply bind_Ok in H as (kc & l2 & Hkc & H). apply lift_Ok in Hkc as [Hkc _].
  apply bind_Ok in H as (pc & l3 & Hrows & H).
  apply ret_Ok in H as [H _]. inversion H; subst.
  split; [reflexivity|]. exists pc. split; [reflexivity|].
  apply dissolve_rows_Ok in Hrows as (Hlen & _ & Hhigh & Hrows).
  split; [assumption|]. exists kc. split; [assumption|]. split.
  - intros idx m ds Hi. now apply Hrows in Hi.
  - intros j Hj. apply Hhigh. cbn. exact Hj.
Qed.

Lemma add_dissolution_Ok mb x mb' :
  add_dissolution mb x = Ok mb' ->
  exists v, mb !! "dissolution"%string = Some v /\
            mb' = <["dissolution"%string := v + x]> mb.
Proof.
  unfold add_dissolution.
  destruct (mb !! "dissolution"%string) as [v|]; [|discriminate].
  intros [= <-]. eauto.
Qed.

(** One pass of the [weather_elements] loop. *)
Lemma weather_substance_Ok mt ts mb sd log mb' sd' log' :
  weather_substance phys self mt ts mb sd log = Ok ((mb', sd'), log') ->
  substance_step phys sd sd' /\
  ((mass (snd sd) = [] /\ mb' = mb /\ log' = log) \/
   (mass (snd sd) <> [] /\ mb' = ledger_plus_zeros 1 mb /\
    is_Some (mb !! "dissolution"%string))).
Proof.
  intros H. unfold weather_substance in H. unfold substance_step.
  destruct (decide (length (mass sd.2) = 0%nat)) as [E|E].
  - apply ret_Ok in H as [H ->]. inversion H; subst.
    apply nil_length_inv in E.
    rewrite decide_True by assumption. auto.
  - assert (mass sd.2 <> []) as Hne by (intros E'; now rewrite E' in E).
    apply bind_Ok in H as ([d1 diss] & l1 & Hd & H).
    apply dissolve_oil_Ok in Hd as (-> & pc & -> & Hst).
    cbn [fst snd] in H.
    apply bind_Ok in H as (mb1 & l2 & Hmb & H).
    apply lift_Ok in Hmb as [Hmb ->].
    apply add_dissolution_Ok in Hmb as (v & Hv & ->).
    apply ret_Ok in H as [H ->]. inversion H; subst.
    rewrite np_sum_zeros, diss_mass_frac_zero.
    cbn [set_partition_coeff mass_components fst snd].
    rewrite scale_by_one.
    rewrite decide_False by assumption.
    split; [split; [reflexivity|]; exists pc; auto|].
    right. split; [assumption|]. split; [|eauto].
    cbn. now rewrite Hv.
Qed.

Lemma processed_cons sd sds :
  processed (sd :: sds)
  = ((if decide (mass (snd sd) = []) then 0 else 1) + processed sds)%nat.
Proof.
  unfold processed. rewrite filter_cons.
  destruct (decide (mass sd.2 <> [])) as [N|N], (decide (mass sd.2 = []));
    try reflexivity; contradiction.
Qed.

Lemma ledger_plus_zeros_succ k mb :
  ledger_plus_zeros (S k) mb = ledger_plus_zeros k (ledger_plus_zeros 1 mb).
Proof. unfold ledger_plus_zeros. now rewrite Nat.iter_succ_r. Qed.

Lemma ledger_plus_zeros_S k mb :
  ledger_plus_zeros (S k) mb
  = match ledger_plus_zeros k mb !! "dissolution"%string with
    | Some v => <["dissolution"%string := v + 0]> (ledger_plus_zeros k mb)
    | None => ledger_plus_zeros k mb
    end.
Proof. reflexivity. Qed.

Lemma add_zeros_S k v : add_zeros (S k) v = add_zeros k v + 0.
Proof. reflexivity. Qed.

Lemma ledger_plus_zeros_lookup k mb :
  ledger_plus_zeros k mb !! "dissolution"%string
  = add_zeros k <$> (mb !! "dissolution"%string).
Proof.
  induction k as [|k IH].
  - cbn. now destruct (mb !! "dissolution"%string).
  - rewrite ledger_plus_zeros_S.
    destruct (ledger_plus_zeros k mb !! "dissolution"%string) as [v|] eqn:E.
    + rewrite lookup_insert_eq.
      destruct (mb !! "dissolution"%string) as [v0|]; [|discriminate].
      cbn [fmap option_fmap option_map] in IH |- *.
      rewrite add_zeros_S. congruence.
    + rewrite E.
      destruct (mb !! "dissolution"%string); [discriminate|reflexivity].
Qed.

Lemma ledger_plus_zeros_other k mb key :
  key <> "dissolution"%string ->
  ledger_plus_zeros k mb !! key = mb !! key.
Proof.
  intros Hk. induction k as [|k IH]; [reflexivity|].
  rewrite ledger_plus_zeros_S.
  destruct (ledger_plus_zeros k mb !! "dissolution"%string); [|assumption].
  rewrite lookup_insert_ne by congruence. assumption.
Qed.

Lemma weather_loop_Ok mt ts sds :
  forall mb log mb' sds' log',
    weather_loop phys self mt ts mb sds log = Ok ((mb', sds'), log') ->
    Forall2 (substance_step phys) sds sds' /\
    mb' = ledger_plus_zeros (processed sds) mb.
Proof.
  induction sds as [|sd sds IH]; intros mb log mb' sds' log' H.
  - apply ret_Ok in H as [H _]. inversion H; subst. split; constructor.
  - cbn [weather_loop] in H.
    apply bind_Ok in H as ([mb1 sd1] & l1 & Hs & H).
    apply bind_Ok in H as ([mb2 sds2] & l2 & Hl & H).
    apply ret_Ok in H as [H _]. cbn [fst snd] in *. inversion H; subst.
    apply weather_substance_Ok in Hs as [Hstep Hmb].
    apply IH in Hl as [Hall ->].
    split; [now constructor|].
    rewrite processed_cons.
    destruct Hmb as [(E & -> & _)|(N & -> & _)].
    + now rewrite decide_True.
    + rewrite decide_False by assumption.
      now rewrite <- ledger_plus_zeros_succ.
Qed.

(** A step that is not active, or that finds nothing released, returns at
    once; any other completed step has run the loop over all bundles. *)
Lemma weather_elements_Ok sc ts mt log sc' log' :
  weather_elements phys self sc ts mt log = Ok (sc', log') ->
  ((active self = false \/ num_released sc = 0%nat) /\
   sc' = sc /\ log' = log) \/
  (active self = true /\ num_released sc <> 0%nat /\
   num_released sc' = num_released sc /\
   Forall2 (substance_step phys) (substance_data sc) (substance_data sc') /\
   mass_balance sc'
     = ledger_plus_zeros (processed (substance_data sc)) (mass_balance sc)).
Proof.
  unfold weather_elements. destruct (active self); cbn [negb].
  2:{ intros H. apply ret_Ok in H as [-> ->]. left. auto. }
  destruct (decide (num_released sc = 0%nat)) as [E|E].
  { intros H. apply ret_Ok in H as [-> ->]. left. auto. }
  intros H. apply bind_Ok in H as ([mb sds] & l1 & Hl & H).
  apply ret_Ok in H as [-> _]. apply weather_loop_Ok in Hl as [Hall ->].
  right. cbn. auto.
Qed.
End StepFacts.

(** * When a step completes *)

Section Completion.
Context (phys : PhysicalModels) (self : Dissolution).
Local Open Scope float_scope.

Lemma dissolve_element_returns s kc mt ts pc idx m ds log wv :
  waves self = Some wv ->
  provider_answers wv mt -> models_answer phys ->
  length (molecular_weight s) = length (sara_type s) ->
  length (component_density s) = length (sara_type s) ->
  length kc = length (sara_type s) ->
  length m = length (sara_type s) ->
  (idx < length pc)%nat ->
  volumes_close s m = true ->
  (0 <? ds) = true ->
  exists K md log',
    dissolve_element phys self s (aromatics_mask s)
      (map (xorb true) (aromatics_mask s)) kc mt ts pc idx m ds log
    = Ok ((<[idx := K]> pc, md), log').
Proof.
  intros Hw ((w & Hwater & [rho_w Hrho_w]) & [wp Hwp] & [wh Hwh] & [ws Hws])
    (HS & HDS & HDF) Hmw Hrho Hkc Hm Hidx Hvol Hds.
  assert (Ham : length (aromatics_mask s) = length (sara_type s))
    by (unfold aromatics_mask; now rewrite length_map).
  unfold dissolve_element, overall_K_ow, oil_avg_density, total_volume_of,
    masked_volume, water_column_time_fraction, get_waves, set_item,
    water_get_density.
  rewrite Hw.
  rewrite (broadcast_same_length PrimFloat.mul m kc) by congruence.
  rewrite (broadcast_same_length PrimFloat.div (zip_with _ m kc))
    by (rewrite length_zip_with_l_eq; congruence).
  rewrite (broadcast_same_length PrimFloat.div m (molecular_weight s))
    by congruence.
  rewrite (broadcast_same_length PrimFloat.mul (map _ m))
    by (rewrite length_map; congruence).
  rewrite (broadcast_same_length PrimFloat.div m (component_density s))
    by congruence.
  rewrite !broadcast_same_length
    by (rewrite length_zip_with_l_eq, ?length_map; congruence).
  unfold volumes_close in Hvol.
  unfold bind at 1. unfold lift at 1.
  unfold bind at 1. unfold lift at 1.
  rewrite decide_True by assumption.
  rewrite bool_decide_eq_true_2 by congruence.
  unfold bind, lift, ret, assert_, ask. cbn [fst snd].
  rewrite Hwater. unfold ret. cbn [fst snd]. rewrite Hrho_w.
  match goal with
  | |- context [Stokes_water_phase_xfer_velocity phys ?a ?b] =>
      destruct (HS a b Hds) as [k_w Hk_w]; rewrite Hk_w
  end.
  rewrite Hvol, Hwp, Hwh, Hws.
  match goal with
  | |- context [DelvigneSweeney_breaking_waves_frac phys ?a ?b] =>
      destruct (HDS a b) as [f_bw Hf_bw]; rewrite Hf_bw
  end.
  match goal with
  | |- context [DingFarmer_water_column_time_fraction phys ?a ?b ?c ?d] =>
      destruct (HDF a b c d) as [f_wc Hf_wc]; rewrite Hf_wc
  end.
  eauto.
Qed.

Lemma dissolve_rows_returns s kc mt ts wv rows :
  waves self = Some wv ->
  provider_answers wv mt -> models_answer phys ->
  length (molecular_weight s) = length (sara_type s) ->
  length (component_density s) = length (sara_type s) ->
  length kc = length (sara_type s) ->
  Forall (fun r : list float * float =>
            (length (fst r) = length (sara_type s) /\
             volumes_close s (fst r) = true) /\
            (0 <? snd r) = true) rows ->
  forall pc idx log,
    (idx + length rows <= length pc)%nat ->
    exists pc' log',
      dissolve_rows phys self s (aromatics_mask s)
        (map (xorb true) (aromatics_mask s)) kc mt ts pc idx rows log
      = Ok (pc', log').
Proof.
  intros Hw Hprov Hmod Hmw Hrho Hkc Hrows.
  induction Hrows as [|[m ds] rows [[Hm Hvol] Hds] _ IH];
    intros pc idx log Hlen.
  - cbn. unfold ret. eauto.
  - cbn [dissolve_rows length fst snd] in *.
    destruct (dissolve_element_returns s kc mt ts pc idx m ds log wv)
      as (K & md & l1 & He); auto; [lia|].
    rewrite (bind_Ok_intro _ _ _ _ _ He). cbn [fst].
    apply IH. rewrite length_insert. lia.
Qed.

Lemma Forall_zip_both {A B} (P : A -> Prop) (Q : B -> Prop)
    (l : list A) (k : list B) :
  Forall P l -> Forall Q k ->
  Forall (fun r => P (fst r) /\ Q (snd r)) (zip l k).
Proof.
  intros H. revert k. induction H as [|x l Hx Hl IH]; intros k Hk;
    destruct Hk; cbn; constructor; auto.
Qed.

Lemma dissolve_oil_returns d s mt ts log wv :
  waves self = Some wv ->
  provider_answers wv mt -> models_answer phys ->
  bundle_ok s d -> droplets_positive d ->
  exists pc log',
    dissolve_oil phys self d s mt ts log
    = Ok ((set_partition_coeff d pc, np_zeros (length (mass d))), log').
Proof.
  intros Hw Hprov Hmod [(Hmw & Hrho & Hrows & Hds & Hpc) Hvol] Hdrops.
  unfold dissolve_oil, K_ow_components.
  rewrite bool_decide_eq_true_2 by congruence.
  rewrite broadcast_same_length.
  2:{ unfold aromatics_mask. rewrite length_map, length_zip_with_l_eq; congruence. }
  unfold bind at 1. unfold assert_ at 1. unfold ret at 1.
  unfold bind at 1. unfold lift at 1.
  set (kc := zip_with (fun (b : bool) k => of_bool b * k) (aromatics_mask s)
               (zip_with (LeeHuibers_partition_coeff phys)
                  (molecular_weight s) (component_density s))).
  assert (Hkc : length kc = length (sara_type s)).
  { unfold kc, aromatics_mask.
    rewrite length_zip_with_l_eq, length_map; [reflexivity|].
    rewrite length_map, length_zip_with_l_eq; congruence. }
  assert (Hall : Forall (fun r : list float * float =>
                           (length (fst r) = length (sara_type s) /\
                            volumes_close s (fst r) = true) /\
                           (0 <? snd r) = true)
                   (zip (mass_components d) (droplet_avg_size d))).
  { apply (Forall_zip_both
             (fun m => length m = length (sara_type s) /\
                       volumes_close s m = true)
             (fun size => (0 <? size) = true)); [|exact Hdrops].
    apply Forall_and. auto. }
  assert (Hlen : (0 + length (zip (mass_components d) (droplet_avg_size d))
                  <= length (partition_coeff d))%nat).
  { rewrite length_zip, Hds, Hpc. cbn. lia. }
  destruct (dissolve_rows_returns s kc mt ts wv _ Hw Hprov Hmod Hmw Hrho
              Hkc Hall (partition_coeff d) 0%nat log Hlen)
    as (pc & l1 & Hr).
  rewrite (bind_Ok_intro _ _ _ _ _ Hr). unfold ret. eauto.
Qed.

Lemma weather_substance_returns mt ts mb sd log wv :
  waves self = Some wv ->
  provider_answers wv mt -> models_answer phys ->
  bundle_ok (fst sd) (snd sd) -> droplets_positive (snd sd) ->
  is_Some (mb !! "dissolution"%string) ->
  exists r log', weather_substance phys self mt ts mb sd log = Ok (r, log').
Proof.
  intros Hw Hprov Hmod Hok Hdrops [v Hv]. unfold weather_substance.
  destruct (decide _); [unfold ret; eauto|].
  destruct (dissolve_oil_returns (snd sd) (fst sd) mt ts log wv
              Hw Hprov Hmod Hok Hdrops) as (pc & l1 & Hd).
  rewrite (bind_Ok_intro _ _ _ _ _ Hd). cbn [fst snd].
  unfold add_dissolution. rewrite Hv.
  unfold bind, lift, ret. eauto.
Qed.

Lemma weather_loop_returns mt ts sds wv :
  waves self = Some wv ->
  provider_answers wv mt -> models_answer phys ->
  Forall (fun sd : Substance * Data =>
            bundle_ok (fst sd) (snd sd) /\ droplets_positive (snd sd)) sds ->
  forall mb log,
    is_Some (mb !! "dissolution"%string) ->
    exists r log', weather_loop phys self mt ts mb sds log = Ok (r, log').
Proof.
  intros Hw Hprov Hmod Hall.
  induction Hall as [|sd sds [Hsd Hdrops] _ IH]; intros mb log Hmb.
  - cbn. unfold ret. eauto.
  - cbn [weather_loop].
    destruct (weather_substance_returns mt ts mb sd log wv
                Hw Hprov Hmod Hsd Hdrops Hmb) as ([mb1 sd1] & l1 & Hs).
    rewrite (bind_Ok_intro _ _ _ _ _ Hs). cbn [fst snd].
    assert (Hmb1 : is_Some (mb1 !! "dissolution"%string)).
    { apply weather_substance_Ok in Hs as [_ [(_ & -> & _)|(_ & -> & _)]];
        [assumption|].
      rewrite ledger_plus_zeros_lookup. destruct Hmb as [v ->]. cbn. eauto. }
    destruct (IH mb1 l1 Hmb1) as (r & l2 & Hl).
    rewrite (bind_Ok_intro _ _ _ _ _ Hl). unfold ret. eauto.
Qed.

(** A step on a ready container completes. *)
Lemma weather_elements_returns sc ts mt log :
  step_ready phys self mt sc ->
  exists sc' log', weather_elements phys self sc ts mt log = Ok (sc', log').
Proof.
  intros ((wv & Hw & Hprov) & Hmod & Hl & Hall). unfold weather_elements.
  destruct (negb (active self)); [unfold ret; eauto|].
  destruct (decide _); [unfold ret; eauto|].
  destruct (weather_loop_returns mt ts _ wv Hw Hprov Hmod Hall
              (mass_balance sc) log Hl) as (r & l1 & Hr).
  rewrite (bind_Ok_intro _ _ _ _ _ Hr). unfold ret. eauto.
Qed.
End Completion.

(** * What initialisation computes *)

Section InitFacts.
Context (self : Dissolution).
Local Open Scope float_scope.

Lemma zeroed_under_refl mask pc : zeroed_under mask pc pc.
Proof. split; auto. Qed.

Lemma zeroed_under_trans mask pc1 pc2 pc3 :
  zeroed_under mask pc1 pc2 -> zeroed_under mask pc2 pc3 ->
  zeroed_under mask pc1 pc3.
Proof.
  intros [L1 H1] [L2 H2]. split; [congruence|].
  intros i. destruct (H2 i) as [E|[M E]]; [|auto].
  rewrite E. apply H1.
Qed.

Lemma initialize_spill_Ok mask spills pc s_num pc' :
  length spills = length mask ->
  initialize_spill mask spills pc s_num = Ok pc' ->
  zeroed_under mask pc pc'.
Proof.
  intros Hlen. unfold initialize_spill.
  rewrite broadcast_same_length by (now rewrite length_map).
  intros H. apply mask_assign_Ok in H as [Hl ->].
  split; [now rewrite length_zip_with_l_eq|].
  intros i. rewrite lookup_zip_with.
  destruct (pc !! i) as [x|] eqn:Ex; cbn; [|auto].
  rewrite length_zip_with_l_eq in Hl by (now rewrite length_map).
  apply lookup_lt_Some in Ex.
  destruct (lookup_lt_is_Some_2 mask i) as [mb Em]; [lia|].
  destruct (lookup_lt_is_Some_2 (map (Z.eqb s_num) spills) i) as [eb Ee];
    [rewrite length_map; lia|].
  rewrite lookup_zip_with, Em, Ee. cbn.
  destruct mb, eb; cbn; auto.
Qed.

Lemma initialize_spills_Ok mask spills s_nums :
  length spills = length mask ->
  forall pc pc',
    initialize_spills mask spills pc s_nums = Ok pc' ->
    zeroed_under mask pc pc'.
Proof.
  intros Hlen. induction s_nums as [|s_num rest IH]; intros pc pc' H.
  - inversion H; subst. apply zeroed_under_refl.
  - cbn [initialize_spills] in H.
    destruct (initialize_spill mask spills pc s_num) as [pc1|] eqn:E;
      [|discriminate].
    apply initialize_spill_Ok in E; [|assumption].
    eapply zeroed_under_trans; eauto.
Qed.

Lemma zeroed_under_same_but_zeros pc pc' :
  zeroed_under (map (fun k => k =? 0) pc) pc pc' -> same_but_zeros pc pc'.
Proof.
  intros [Hl H]. apply Forall2_same_length_lookup. split; [congruence|].
  intros i o n Ho Hn. destruct (H i) as [E|[M E]].
  - left. congruence.
  - right. rewrite list_lookup_fmap, Ho in M. cbn in M.
    split; congruence.
Qed.

Lemma initialize_substance_Ok n d n' d' :
  initialize_substance n d = Ok (n', d') ->
  n' = (n + length (partition_coeff d))%nat /\
  exists pc, d' = set_partition_coeff d pc /\
             same_but_zeros (partition_coeff d) pc.
Proof.
  unfold initialize_substance. destruct (decide _) as [E|E].
  - intros [= <- <-]. split; [lia|]. exists (partition_coeff d).
    split; [now destruct d|]. apply Forall2_same_length_lookup.
    split; [reflexivity|]. intros i o n' Ho Hn. left. congruence.
  - unfold bool_index. destruct (decide _) as [L|L]; [|discriminate].
    destruct (initialize_spills _ _ _ _) as [pc|] eqn:Es; [|discriminate].
    intros [= <- <-]. rewrite length_map. split; [reflexivity|].
    exists pc. split; [reflexivity|].
    apply zeroed_under_same_but_zeros.
    eapply initialize_spills_Ok; eauto.
Qed.

Lemma initialize_loop_Ok sds :
  forall n n' sds',
    initialize_loop n sds = Ok (n', sds') ->
    n' = (n + total_rows sds)%nat /\ Forall2 initialized sds sds'.
Proof.
  induction sds as [|[s d] sds IH]; intros n n' sds' H.
  - inversion H; subst. split; [unfold total_rows; cbn; lia|constructor].
  - cbn [initialize_loop] in H.
    destruct (initialize_substance n d) as [[n1 d1]|] eqn:E1; [|discriminate].
    destruct (initialize_loop n1 sds) as [[n2 sds2]|] eqn:E2; [|discriminate].
    inversion H; subst.
    apply initialize_substance_Ok in E1 as (-> & pc & -> & Hz).
    apply IH in E2 as [-> Hall].
    split; [unfold total_rows; cbn; lia|].
    constructor; [|assumption]. split; [reflexivity|]. exists pc. auto.
Qed.

(** A completed initialisation has found [num_released] equal to the number
    of all rows, and has left every array numerically as it was. *)
Lemma initialize_data_Ok sc n sc' :
  initialize_data self sc n = Ok sc' ->
  (on self = false /\ sc' = sc) \/
  (on self = true /\ n = total_rows (substance_data sc) /\
   num_released sc' = num_released sc /\
   mass_balance sc' = mass_balance sc /\
   Forall2 initialized (substance_data sc) (substance_data sc')).
Proof.
  unfold initialize_data. destruct (on self); cbn [negb].
  2:{ intros [= <-]. left. auto. }
  unfold _initialize_k_ow, itersubstancedata.
  destruct (initialize_loop 0 (substance_data sc)) as [[k sds]|] eqn:E;
    [|discriminate].
  destruct (decide (k = n)) as [<-|]; [|discriminate].
  intros [= <-]. apply initialize_loop_Ok in E as [-> Hall].
  right. cbn. auto.
Qed.
End InitFacts.

(** * Consequences for whole steps *)

Section Consequences.
Local Open Scope float_scope.

Lemma stand_in_models_answer : models_answer stand_in_models.
Proof.
  split; [|split].
  - intros delta_rho size H. cbn. rewrite H. eexists. reflexivity.
  - intros wind period. eexists. reflexivity.
  - intros f_bw period height k_w. eexists. reflexivity.
Qed.

Lemma scenario_waves_answer mt : provider_answers scenario_waves mt.
Proof.
  split; [eexists; split; [reflexivity|eexists; reflexivity]|].
  repeat split; eexists; reflexivity.
Qed.

Lemma scenario_ready mt :
  step_ready stand_in_models scenario_self mt scenario_sc.
Proof.
  split; [eexists; split; [reflexivity|apply scenario_waves_answer]|].
  split; [apply stand_in_models_answer|].
  split; [eexists; reflexivity|].
  repeat constructor.
Qed.

Lemma same_but_zeros_refl pc : same_but_zeros pc pc.
Proof.
  apply Forall2_same_length_lookup. split; [reflexivity|].
  intros i o n Ho Hn. left. congruence.
Qed.

Lemma initialized_refl sd : initialized sd sd.
Proof.
  split; [reflexivity|]. exists (partition_coeff (snd sd)).
  split; [now destruct sd as [s []]|apply same_but_zeros_refl].
Qed.

Lemma Forall2_Forall_step {A} (R : A -> A -> Prop) (P Q : A -> Prop) l l' :
  (forall x y, R x y -> P x -> Q y) ->
  Forall2 R l l' -> Forall P l -> Forall Q l'.
Proof.
  intros HR H. induction H as [|x y l l' Hxy _ IH]; intros HP; [constructor|].
  inversion HP; subst. constructor; eauto.
Qed.


Lemma step_keeps_nonneg phys sd sd' :
  substance_step phys sd sd' ->
  masses_nonneg (snd sd) -> masses_nonneg (snd sd').
Proof.
  destruct sd as [s d], sd' as [s' d']. intros [_ Hstep] [Hm Hc].
  cbn [fst snd] in *. destruct (decide (mass d = [])); [now subst d'|].
  destruct Hstep as (pc & _ & ->). split; cbn; [|assumption].
  induction Hc as [|row rows Hrow _ IH]; cbn; constructor; auto.
  now apply np_sum_nonneg.
Qed.

Lemma ledger_after_zeros k sc sc' v :
  mass_balance sc' = ledger_plus_zeros k (mass_balance sc) ->
  ledger sc = Some v -> ledger sc' = Some (add_zeros k v).
Proof.
  unfold ledger. intros -> Hv. now rewrite ledger_plus_zeros_lookup, Hv.
Qed.

Lemma step_keeps_mass phys sd sd' :
  substance_step phys sd sd' -> row_sum_inv (snd sd) ->
  mass (snd sd') = mass (snd sd).
Proof.
  destruct sd as [s d], sd' as [s' d']. intros [_ Hstep] Hinv.
  cbn [fst snd] in *. destruct (decide (mass d = [])); [now subst d'|].
  destruct Hstep as (pc & _ & ->). cbn. now rewrite Hinv.
Qed.





Lemma container_eq (sc1 sc2 : SpillContainer) :
  num_released sc1 = num_released sc2 ->
  mass_balance sc1 = mass_balance sc2 ->
  substance_data sc1 = substance_data sc2 -> sc1 = sc2.
Proof. destruct sc1, sc2. cbn. congruence. Qed.

(** An active step on a ready container with one bundle that has
    elements: it completes, and the container that it leaves is known up
    to the coefficients. *)
Lemma single_bundle_step phys self mt ts log n mb s d :
  step_ready phys self mt
    {| num_released := n; mass_balance := mb; substance_data := [(s, d)] |} ->
  active self = true -> n <> 0%nat -> mass d <> [] ->
  exists pc log',
    weather_elements phys self
      {| num_released := n; mass_balance := mb; substance_data := [(s, d)] |}
      ts mt log
    = Ok ({| num_released := n;
             mass_balance := ledger_plus_zeros 1 mb;
             substance_data :=
               [(s, set_masses (set_partition_coeff d pc)
                      (mass_components d)
                      (map np_sum (mass_components d)))] |}, log') /\
    stored_K_ow phys s d pc.
Proof.
  intros Hready Ha Hn Hne.
  destruct (weather_elements_returns phys self _ ts mt log Hready)
    as (sc' & log' & Hrun).
  pose proof Hrun as Hok.
  apply weather_elements_Ok in Hok
    as [([E|E] & _)|(_ & _ & Hnum & Hall & Hmb)];
    [congruence|contradiction|].
  cbn [num_released mass_balance substance_data] in *.
  apply Forall2_cons_inv_l in Hall as ([s' d'] & rest & [Es Hstep] & Hnil & Hsd).
  apply Forall2_nil_inv_l in Hnil as ->. cbn [fst snd] in *. subst s'.
  rewrite decide_False in Hstep by assumption.
  destruct Hstep as (pc & Hst & ->).
  exists pc, log'. split; [|assumption].
  rewrite Hrun. do 2 f_equal. apply container_eq; cbn; auto.
  rewrite Hmb, processed_cons. cbn [snd].
  now rewrite decide_False by assumption.
Qed.

(** The scenario's container with another row is ready whenever the
    physical models answer and the row passes the volume assertion. *)
Lemma with_row_ready phys mt row total :
  models_answer phys ->
  length row = 2%nat -> volumes_close scenario_substance row = true ->
  step_ready phys scenario_self mt (with_row row total).
Proof.
  intros Hmod Hlen Hvol.
  split; [eexists; split; [reflexivity|apply scenario_waves_answer]|].
  split; [assumption|]. split; [eexists; reflexivity|].
  constructor; [|constructor]. split; [|repeat constructor].
  split; [|repeat constructor; assumption].
  repeat split; try reflexivity. repeat constructor. assumption.
Qed.

(** The outcome of a step on the scenario's container with another row. *)
Lemma with_row_step phys mt ts log row total :
  models_answer phys ->
  length row = 2%nat -> volumes_close scenario_substance row = true ->
  exists pc log',
    weather_elements phys scenario_self (with_row row total) ts mt log
    = Ok ({| num_released := 1;
             mass_balance :=
               ledger_plus_zeros 1 {["dissolution"%string := 0]};
             substance_data :=
               [(scenario_substance,
                 set_masses (set_partition_coeff scenario_data pc)
                   [row] [np_sum row])] |}, log') /\
    stored_K_ow phys scenario_substance
      (set_masses scenario_data [row] [total]) pc.
Proof.
  intros Hmod Hlen Hvol.
  destruct (single_bundle_step phys scenario_self mt ts log 1
              {["dissolution"%string := 0]} scenario_substance
              (set_masses scenario_data [row] [total])
              (with_row_ready phys mt row total Hmod Hlen Hvol)
              eq_refl (fun E => O_S 0 (eq_sym E)))
    as (pc & log' & Hrun & Hst); [discriminate|].
  exists pc, log'. split; [exact Hrun|exact Hst].
Qed.
Lemma div_by_zero_not_finite (x K : float) :
  (K =? 0) = true -> is_finite (x / K) = false.
Proof.
  rewrite FloatAxioms.eqb_spec, is_finite_spec, FloatAxioms.div_spec.
  change (Prim2SF 0) with (S754_zero false).
  destruct (Prim2SF K) as [s|s| |s m e]; intros H;
    [|destruct s; discriminate|discriminate|destruct s; discriminate].
  destruct (Prim2SF x) as [s'|s'| |s' m' e']; reflexivity.
Qed.


End Consequences.

(** * Properties of the specification *)

Section Properties.
Local Open Scope float_scope.

(** C1, on the code.  Run on the scenario of the specification, the step
    completes whenever the physical models answer, and for any physical
    models a step that completes reports [0.0] as dissolved: the ledger
    entry stays [0.0] and both component masses stay 50.  The value is not
    strictly positive. *)
Theorem scenario_step_dissolves_nothing (phys : PhysicalModels) :
  (models_answer phys ->
   exists sc' log',
     weather_elements phys scenario_self scenario_sc scenario_time_step 0 []
       = Ok (sc', log')) /\
  (forall sc' log',
      weather_elements phys scenario_self scenario_sc scenario_time_step 0 []
        = Ok (sc', log') ->
      ledger sc' = Some 0 /\
      components_of sc' = [[[50; 50]]] /\
      masses_of sc' = [[100]]).
Proof.
  split.
  - intros Hmod. apply weather_elements_returns.
    split; [eexists; split; [reflexivity|apply scenario_waves_answer]|].
    split; [assumption|]. split; [eexists; reflexivity|].
    repeat constructor.
  - intros sc' log' H.
    apply weather_elements_Ok in H
      as [([E|E] & _)|(_ & _ & _ & Hall & Hmb)]; [discriminate..|].
    unfold scenario_sc in Hall. cbn [substance_data] in Hall.
    apply Forall2_cons_inv_l in Hall
      as ([s' d'] & rest & [Es Hstep] & Hnil & Hsd).
    apply Forall2_nil_inv_l in Hnil as ->. cbn [fst snd] in *.
    rewrite decide_False in Hstep by discriminate.
    destruct Hstep as (pc & _ & ->).
    unfold ledger, components_of, masses_of. rewrite Hmb, Hsd.
    repeat split; vm_compute; reflexivity.
Qed.

Lemma scenario_step_dissolves_nothing_witness :
  exists sc' log',
    weather_elements stand_in_models scenario_self scenario_sc
      scenario_time_step 0 [] = Ok (sc', log') /\
    ledger sc' = Some 0 /\
    components_of sc' = [[[50; 50]]] /\
    masses_of sc' = [[100]].
Proof.
  destruct (proj1 (scenario_step_dissolves_nothing stand_in_models)
              stand_in_models_answer) as (sc' & log' & H).
  exists sc', log'. split; [exact H|].
  exact (proj2 (scenario_step_dissolves_nothing stand_in_models) sc' log' H).
Defined.

(** C2 (amended).  When every total mass is the sum of its row before the
    step, what a completed step takes from the elements of a bundle is
    what it adds to the ledger entry, so for every bundle the accounting
    check against any released mass gives after the step what it gave
    before.  (The statement gives both amounts: the total masses after the
    step and the entry after the step, in terms of those before it.) *)
Theorem mass_conservation
    (phys : PhysicalModels) (self : Dissolution) (sc : SpillContainer)
    (time_step : float) (model_time : Z) (log : list env_query)
    (sc' : SpillContainer) (log' : list env_query) :
  weather_elements phys self sc time_step model_time log = Ok (sc', log') ->
  Forall (fun sd : Substance * Data => row_sum_inv (snd sd))
    (substance_data sc) ->
  Forall2 (fun sd sd' : Substance * Data => mass (snd sd') = mass (snd sd))
    (substance_data sc) (substance_data sc') /\
  exists k,
    mass_balance sc' = ledger_plus_zeros k (mass_balance sc) /\
    forall v, ledger sc = Some v ->
      ledger sc' = Some (add_zeros k v) /\
      forall released,
        Forall2 (fun sd sd' : Substance * Data =>
                   conserved (snd sd') (add_zeros k v) released
                   = conserved (snd sd) v released)
          (substance_data sc) (substance_data sc').
Proof.
  intros H Hinv.
  assert (Hmass : Forall2 (fun sd sd' : Substance * Data =>
                             mass (snd sd') = mass (snd sd))
                    (substance_data sc) (substance_data sc')
                  /\ exists k, mass_balance sc'
                               = ledger_plus_zeros k (mass_balance sc)).
  { apply weather_elements_Ok in H as [(_ & -> & _)|(_ & _ & _ & Hall & Hmb)].
    - split; [|now exists 0%nat].
      apply Forall2_same_length_lookup. split; [reflexivity|].
      intros i sd sd' H1 H2. congruence.
    - split; [|eauto].
      apply Forall2_same_length_lookup. split; [now apply Forall2_length in Hall|].
      intros i sd sd' H1 H2.
      apply (step_keeps_mass phys).
      + eapply Forall2_lookup_lr; eauto.
      + eapply Forall_lookup_1 in Hinv; eauto. }
  destruct Hmass as [Hmass (k & Hk)]. split; [assumption|].
  exists k. split; [assumption|]. intros v Hv.
  split; [eapply ledger_after_zeros; eauto|].
  intros released. eapply Forall2_impl; [exact Hmass|].
  intros sd sd' E. unfold conserved, total_mass. rewrite E.
  apply within_rel_tol_add_zeros.
Qed.

Lemma mass_conservation_witness :
  exists sc' log',
    weather_elements stand_in_models scenario_self scenario_sc
      scenario_time_step 0 [] = Ok (sc', log') /\
    Forall2 (fun sd sd' : Substance * Data => mass (snd sd') = mass (snd sd))
      (substance_data scenario_sc) (substance_data sc') /\
    exists k,
      mass_balance sc' = ledger_plus_zeros k (mass_balance scenario_sc) /\
      forall v, ledger scenario_sc = Some v ->
        ledger sc' = Some (add_zeros k v) /\
        forall released,
          Forall2 (fun sd sd' : Substance * Data =>
                     conserved (snd sd') (add_zeros k v) released
                     = conserved (snd sd) v released)
            (substance_data scenario_sc) (substance_data sc').
Proof.
  eexists _, _. split; [vm_compute; reflexivity|].
  apply (mass_conservation stand_in_models scenario_self scenario_sc
           scenario_time_step 0 [] _ _ eq_refl).
  repeat constructor.
Defined.

(** C2 as stated fails where a total mass is not exactly the sum of its
    row.  With a total of 5 over components 1 and 2, the accounting check
    against 5 released holds before the step and fails after it, whatever
    the physical models answer.  The same happens when the total (1) is
    within the tolerance of the sum of its row and the check against the
    released mass holds before the step. *)
Lemma mass_conservation_counterexample :
  (conservation_check skewed_sc 5 = Some true /\
   forall phys,
     models_answer phys ->
     exists sc' log',
       weather_elements phys scenario_self skewed_sc scenario_time_step 0 []
         = Ok (sc', log') /\
       conservation_check sc' 5 = Some false) /\
  (conservation_check drifted_sc drifted_released = Some true /\
   within_rel_tol (np_sum [0.5; 0.5000000009]) 1 = true /\
   forall phys,
     models_answer phys ->
     exists sc' log',
       weather_elements phys scenario_self drifted_sc scenario_time_step 0 []
         = Ok (sc', log') /\
       conservation_check sc' drifted_released = Some false).
Proof.
  split; (split; [vm_compute; reflexivity|]).
  - intros phys Hmod.
    destruct (with_row_step phys 0 scenario_time_step [] [1; 2] 5 Hmod
                eq_refl eq_refl) as (pc & log' & Hrun & _).
    eexists _, _. split; [exact Hrun|]. vm_compute. reflexivity.
  - split; [vm_compute; reflexivity|].
    intros phys Hmod.
    destruct (with_row_step phys 0 scenario_time_step []
                [0.5; 0.5000000009] 1 Hmod eq_refl eq_refl)
      as (pc & log' & Hrun & _).
    eexists _, _. split; [exact Hrun|]. vm_compute. reflexivity.
Qed.

(** C3, on the code.  With five rows of which three carry the sentinel, a
    call that claims five released elements passes, and a call that claims
    three fails: the count that is compared is the number of rows. *)
Theorem release_count_compares_rows :
  sentinel_rows five_rows_data = 3%nat /\
  initialize_data scenario_self five_rows_sc 5 = Ok five_rows_sc /\
  initialize_data scenario_self five_rows_sc 3 = Raise AssertionError.
Proof. repeat split; vm_compute; reflexivity. Qed.







(** C6 (amended).  A step of a process that is not active returns the
    container and the query log as they were.  [prepare_for_model_step]
    leaves a process inactive when it is off or outside its window, so the
    step that follows does the same.  With the on-flag false,
    [initialize_data] and [prepare_for_model_run] return the container as
    it was.  With the on-flag true, [initialize_data] runs whether or not
    the process is active: when it completes, the ledger is as it was and
    in every bundle only [partition_coeff] may differ, and only by holding
    [0.0] where the old value compared equal to zero. *)
Theorem inactive_process_frame
    (phys : PhysicalModels) (self : Dissolution) (sc : SpillContainer)
    (time_step : float) (model_time : Z) (log : list env_query)
    (released : nat) :
  (active self = false ->
   weather_elements phys self sc time_step model_time log = Ok (sc, log)) /\
  (on self = false \/ in_active_window self model_time = false ->
   weather_elements phys
     (prepare_for_model_step self sc time_step model_time)
     sc time_step model_time log = Ok (sc, log)) /\
  (on self = false ->
   initialize_data self sc released = Ok sc /\
   initialize_data (prepare_for_model_step self sc time_step model_time)
     sc released = Ok sc /\
   prepare_for_model_run self sc = sc) /\
  (forall sc',
      initialize_data self sc released = Ok sc' ->
      num_released sc' = num_released sc /\
      mass_balance sc' = mass_balance sc /\
      Forall2 initialized (substance_data sc) (substance_data sc')).
Proof.
  split; [|split; [|split]].
  - intros H. unfold weather_elements. now rewrite H.
  - intros H. unfold weather_elements, prepare_for_model_step.
    cbn [active].
    destruct H as [-> | ->]; [reflexivity|]. now rewrite andb_false_r.
  - intros H.
    unfold initialize_data, prepare_for_model_run, prepare_for_model_step.
    cbn [on]. now rewrite H.
  - intros sc' H.
    apply initialize_data_Ok in H as [[_ ->]|(_ & _ & Hn & Hmb & Hall)]; auto.
    repeat split. apply Forall2_same_length_lookup. split; [reflexivity|].
    intros i sd sd' H1 H2. assert (sd' = sd) as -> by congruence.
    apply initialized_refl.
Qed.

Lemma inactive_process_frame_witness :
  weather_elements stand_in_models self_outside_window scenario_sc
    scenario_time_step 0 [] = Ok (scenario_sc, []) /\
  weather_elements stand_in_models
    (prepare_for_model_step self_outside_window scenario_sc
       scenario_time_step 0)
    scenario_sc scenario_time_step 0 [] = Ok (scenario_sc, []) /\
  weather_elements stand_in_models
    (prepare_for_model_step self_off scenario_sc scenario_time_step 0)
    scenario_sc scenario_time_step 0 [] = Ok (scenario_sc, []) /\
  initialize_data self_off scenario_sc 5 = Ok scenario_sc.
Proof.
  split; [|split; [|split]].
  - apply (proj1 (inactive_process_frame stand_in_models self_outside_window
                    scenario_sc scenario_time_step 0 [] 1)).
    reflexivity.
  - apply (proj1 (proj2 (inactive_process_frame stand_in_models
                           self_outside_window scenario_sc
                           scenario_time_step 0 [] 1))).
    right. reflexivity.
  - apply (proj1 (proj2 (inactive_process_frame stand_in_models self_off
                           scenario_sc scenario_time_step 0 [] 1))).
    left. reflexivity.
  - apply (proj1 (proj2 (proj2 (inactive_process_frame stand_in_models
                                  self_off scenario_sc scenario_time_step
                                  0 [] 5)))).
    reflexivity.
Defined.

(** C6 as stated fails for a process that is on but outside its window:
    [prepare_for_model_step] leaves it inactive, yet [initialize_data]
    still runs, and an element array changes (a negative zero becomes
    [0.0]). *)
Lemma inactive_process_frame_counterexample :
  in_active_window self_outside_window 0 = false /\
  active (prepare_for_model_step self_outside_window neg_zero_sc
            scenario_time_step 0) = false /\
  exists sc',
    initialize_data
      (prepare_for_model_step self_outside_window neg_zero_sc
         scenario_time_step 0) neg_zero_sc 1 = Ok sc' /\
    partition_coeffs_of neg_zero_sc = [[(-0)%float]] /\
    partition_coeffs_of sc' = [[0]] /\
    (-0)%float <> 0.
Proof.
  split; [reflexivity|]. split; [reflexivity|].
  eexists. split; [vm_compute; reflexivity|].
  repeat split. intros H. apply (f_equal Prim2SF) in H.
  vm_compute in H. discriminate.
Qed.

(** C7.  The loop body of [weather_elements] on a bundle without elements
    returns before [dissolve_oil]: the query log and the ledger are as they
    were, and so is the bundle; the loop over all bundles behaves as if that
    bundle were not there.  A step on a container that has released nothing
    returns before the loop, with the same effect. *)
Theorem zero_element_skip
    (phys : PhysicalModels) (self : Dissolution) (model_time : Z)
    (time_step : float) (log : list env_query) :
  (forall mb s d,
      length (mass d) = 0%nat ->
      weather_substance phys self model_time time_step mb (s, d) log
        = Ok ((mb, (s, d)), log)) /\
  (forall mb s d rest,
      length (mass d) = 0%nat ->
      weather_loop phys self model_time time_step mb ((s, d) :: rest) log
      = match weather_loop phys self model_time time_step mb rest log with
        | Ok ((mb', rest'), log') => Ok ((mb', (s, d) :: rest'), log')
        | Raise e => Raise e
        end) /\
  (forall sc,
      num_released sc = 0%nat ->
      weather_elements phys self sc time_step model_time log = Ok (sc, log)).
Proof.
  assert (Hbody : forall mb s d,
             length (mass d) = 0%nat ->
             weather_substance phys self model_time time_step mb (s, d) log
             = Ok ((mb, (s, d)), log)).
  { intros mb s d H. unfold weather_substance. cbn [fst snd].
    now rewrite decide_True. }
  split; [exact Hbody|]. split.
  - intros mb s d rest H. cbn [weather_loop]. unfold bind at 1.
    rewrite (Hbody mb s d H). cbn [fst snd]. unfold bind.
    destruct (weather_loop _ _ _ _ _ _ _) as [[[mb' rest'] log']|e];
      reflexivity.
  - intros sc H. unfold weather_elements.
    destruct (negb (active self)); [reflexivity|].
    now rewrite decide_True.
Qed.

Lemma zero_element_skip_witness :
  weather_substance stand_in_models scenario_self 0 scenario_time_step
    (mass_balance scenario_sc) (scenario_substance, empty_data) []
  = Ok ((mass_balance scenario_sc, (scenario_substance, empty_data)), []).
Proof.
  apply (proj1 (zero_element_skip stand_in_models scenario_self 0
                  scenario_time_step [])).
  reflexivity.
Defined.

(** C8.  The fraction that [weather_elements] applies never exceeds 1, and
    it is 0 when the total mass is zero (or not positive); on what
    [dissolve_oil] returns it is 0.  A completed step on masses none of
    which is negative leaves no component mass and no total mass
    negative. *)
Theorem mass_never_negative
    (phys : PhysicalModels) (self : Dissolution) (sc : SpillContainer)
    (time_step : float) (model_time : Z) (log : list env_query)
    (sc' : SpillContainer) (log' : list env_query) :
  weather_elements phys self sc time_step model_time log = Ok (sc', log') ->
  Forall (fun sd : Substance * Data => masses_nonneg (snd sd))
    (substance_data sc) ->
  (forall diss_sum mass_sum,
      (1 <? diss_mass_frac diss_sum mass_sum) = false /\
      ((0 <? mass_sum) = false -> diss_mass_frac diss_sum mass_sum = 0)) /\
  (forall diss_sum, diss_mass_frac diss_sum 0 = 0) /\
  (forall n mass_sum, diss_mass_frac (np_sum (np_zeros n)) mass_sum = 0) /\
  Forall (fun sd' : Substance * Data => masses_nonneg (snd sd'))
    (substance_data sc').
Proof.
  intros H Hnn. split; [|split; [|split]].
  - intros ds ms. unfold diss_mass_frac. split.
    + destruct (0 <? ms); [|reflexivity].
      destruct (1 <? ds / ms) eqn:E; [reflexivity|exact E].
    + now intros ->.
  - reflexivity.
  - intros n ms. rewrite np_sum_zeros. apply diss_mass_frac_zero.
  - apply weather_elements_Ok in H as [(_ & -> & _)|(_ & _ & _ & Hall & _)];
      [assumption|].
    eapply Forall2_Forall_step; [|exact Hall|exact Hnn].
    intros sd sd'. apply step_keeps_nonneg.
Qed.

Lemma mass_never_negative_witness :
  exists sc' log',
    weather_elements stand_in_models scenario_self scenario_sc
      scenario_time_step 0 [] = Ok (sc', log') /\
    Forall (fun sd' : Substance * Data => masses_nonneg (snd sd'))
      (substance_data sc').
Proof.
  eexists _, _. split; [vm_compute; reflexivity|].
  eapply (proj2 (proj2 (proj2 (mass_never_negative stand_in_models
                   scenario_self scenario_sc scenario_time_step 0 []
                   _ _ eq_refl _)))).
  Unshelve.
  repeat constructor.
Defined.




(** C10 (amended).  Whenever [dissolve_oil] returns, it returns zeros, one
    per element, whatever it computed on the way; on a ready container a
    step completes; and a completed active step adds [0.0] to the ledger
    entry once per bundle it works on, leaves every component mass as it
    was and sets every total mass to the sum of its row, which leaves it
    as it was when it already was that sum. *)
Theorem dissolve_oil_returns_zeros
    (phys : PhysicalModels) (self : Dissolution) (sc : SpillContainer)
    (time_step : float) (model_time : Z) (log : list env_query) :
  (forall d s log0 d' diss log1,
      dissolve_oil phys self d s model_time time_step log0
        = Ok ((d', diss), log1) ->
      diss = np_zeros (length (mass d))) /\
  (step_ready phys self model_time sc ->
   exists sc' log',
     weather_elements phys self sc time_step model_time log
       = Ok (sc', log')) /\
  (forall sc' log',
      active self = true -> num_released sc <> 0%nat ->
      weather_elements phys self sc time_step model_time log
        = Ok (sc', log') ->
      mass_balance sc'
        = ledger_plus_zeros (processed (substance_data sc))
            (mass_balance sc) /\
      Forall2 (fun sd sd' : Substance * Data =>
                 mass_components (snd sd') = mass_components (snd sd) /\
                 (mass (snd sd) <> [] ->
                  mass (snd sd') = map np_sum (mass_components (snd sd))) /\
                 (row_sum_inv (snd sd) -> mass (snd sd') = mass (snd sd)))
        (substance_data sc) (substance_data sc')).
Proof.
  split; [|split].
  - intros d s log0 d' diss log1 H.
    now apply dissolve_oil_Ok in H as [-> _].
  - apply weather_elements_returns.
  - intros sc' log' Ha Hn H.
    apply weather_elements_Ok in H
      as [([E|E] & _)|(_ & _ & _ & Hall & Hmb)]; [congruence|contradiction|].
    split; [assumption|].
    eapply Forall2_impl; [exact Hall|].
    intros [s d] [s' d'] [_ Hstep]. cbn [fst snd] in *.
    destruct (decide (mass d = [])) as [E|E].
    + subst d'. repeat split; auto. contradiction.
    + destruct Hstep as (pc & _ & ->). cbn. repeat split; auto.
Qed.

(** The amended C10 on the scenario: the step completes, the ledger entry
    is [0.0 + 0.0] and the masses are as before. *)
Lemma dissolve_oil_returns_zeros_witness :
  exists sc' log',
    weather_elements stand_in_models scenario_self scenario_sc
      scenario_time_step 0 [] = Ok (sc', log') /\
    ledger sc' = Some (0 + 0) /\
    map (fun sd : Substance * Data => mass_components (snd sd))
      (substance_data sc') = [[[50; 50]]] /\
    map (fun sd : Substance * Data => mass (snd sd))
      (substance_data sc') = [[100]].
Proof.
  destruct (dissolve_oil_returns_zeros stand_in_models scenario_self
              scenario_sc scenario_time_step 0 []) as (_ & Hret & Hstep).
  destruct (Hret (scenario_ready 0)) as (sc' & log' & Hrun).
  exists sc', log'. split; [exact Hrun|].
  destruct (Hstep sc' log' eq_refl (fun E => O_S 0 (eq_sym E)) Hrun)
    as [Hmb Hall].
  split.
  - unfold ledger. rewrite Hmb. reflexivity.
  - cbn [scenario_sc substance_data] in Hall.
    apply Forall2_cons_inv_l in Hall as (sd' & rest & (Hc & Hm & _) & Hnil & ->).
    apply Forall2_nil_inv_l in Hnil as ->. cbn [map substance_data].
    split.
    + now rewrite Hc.
    + rewrite Hm by discriminate. reflexivity.
Defined.

(** C10 as stated fails twice: without a wave provider [dissolve_oil]
    returns nothing (it raises), and a total mass that was not the sum of
    its row is changed by the step (5 becomes 3). *)
Lemma dissolve_oil_returns_zeros_counterexample :
  (forall phys,
      dissolve_oil phys self_no_waves scenario_data scenario_substance
        0 scenario_time_step [] = Raise AttributeError) /\
  (forall phys,
      models_answer phys ->
      exists sc' log',
        weather_elements phys scenario_self skewed_sc
          scenario_time_step 0 [] = Ok (sc', log') /\
        map (fun sd : Substance * Data => mass (snd sd))
          (substance_data skewed_sc) = [[5]] /\
        map (fun sd : Substance * Data => mass (snd sd))
          (substance_data sc') = [[3]]).
Proof.
  split.
  - intros phys. vm_compute. reflexivity.
  - intros phys Hmod.
    destruct (with_row_step phys 0 scenario_time_step [] [1; 2] 5 Hmod
                eq_refl eq_refl) as (pc & log' & Hrun & _).
    eexists _, _. split; [exact Hrun|]. split; vm_compute; reflexivity.
Qed.
End Properties.

(** * The queries of a step *)

Section QueryFacts.
Context (phys : PhysicalModels) (self : Dissolution).
Local Open Scope float_scope.

Lemma ask_Ok q log u log' : ask q log = Ok (u, log') -> log' = log ++ [q].
Proof. unfold ask. now intros [= _ <-]. Qed.

Lemma get_waves_Ok log wv log' :
  get_waves self log = Ok (wv, log') -> waves self = Some wv /\ log' = log.
Proof.
  unfold get_waves. destruct (waves self); [|discriminate].
  intros H. apply ret_Ok in H as [-> ->]. auto.
Qed.

Lemma oil_avg_density_log masses densities log r log' :
  oil_avg_density masses densities log = Ok (r, log') -> log' = log.
Proof.
  unfold oil_avg_density. intros H.
  apply bind_Ok in H as (u & l1 & H1 & H). apply assert_Ok in H1 as [_ ->].
  apply bind_Ok in H as (x & l2 & H2 & H). apply lift_Ok in H2 as [_ ->].
  now apply ret_Ok in H as [_ ->].
Qed.

Lemma water_column_time_fraction_log mt k_w log r log' :
  water_column_time_fraction phys self mt k_w log = Ok (r, log') ->
  log' = log ++ [PeakWavePeriod mt; WaveHeight mt; WindSpeed mt].
Proof.
  unfold water_column_time_fraction. intros H.
  apply bind_Ok in H as (wv & l1 & H1 & H). apply get_waves_Ok in H1 as [_ ->].
  apply bind_Ok in H as (u1 & l2 & H2 & H). apply ask_Ok in H2 as ->.
  apply bind_Ok in H as (wp & l3 & H3 & H). apply lift_Ok in H3 as [_ ->].
  apply bind_Ok in H as (u2 & l4 & H4 & H). apply ask_Ok in H4 as ->.
  apply bind_Ok in H as (wh & l5 & H5 & H). apply lift_Ok in H5 as [_ ->].
  apply bind_Ok in H as (u3 & l6 & H6 & H). apply ask_Ok in H6 as ->.
  apply bind_Ok in H as (ws & l7 & H7 & H). apply lift_Ok in H7 as [_ ->].
  apply bind_Ok in H as (fb & l8 & H8 & H). apply lift_Ok in H8 as [_ ->].
  apply lift_Ok in H as [_ ->]. now rewrite <- !app_assoc.
Qed.

Lemma water_get_density_log wv log r log' :
  water_get_density wv log = Ok (r, log') -> log' = log ++ [WaterDensity].
Proof.
  unfold water_get_density. destruct (water wv); [|discriminate].
  intros H.
  apply bind_Ok in H as (u & l1 & H1 & H). apply ask_Ok in H1 as ->.
  now apply lift_Ok in H as [_ ->].
Qed.

(** A completed pass of the loop body has found the wave provider and has
    sent the four queries of one element. *)
Lemma dissolve_element_log s am nam kc mt ts pc idx m ds log r log' :
  dissolve_element phys self s am nam kc mt ts pc idx m ds log
    = Ok (r, log') ->
  is_Some (waves self) /\ log' = log ++ element_queries mt.
Proof.
  unfold dissolve_element. intros H.
  apply bind_Ok in H as (K & l1 & H1 & H). apply lift_Ok in H1 as [_ ->].
  apply bind_Ok in H as (pc1 & l2 & H2 & H). apply lift_Ok in H2 as [_ ->].
  apply bind_Ok in H as (rho & l3 & H3 & H).
  apply oil_avg_density_log in H3 as ->.
  apply bind_Ok in H as (wv & l4 & H4 & H).
  apply get_waves_Ok in H4 as [Hw ->].
  apply bind_Ok in H as (wr & l5 & H5 & H).
  apply water_get_density_log in H5 as ->.
  apply bind_Ok in H as (kw & l5' & H5' & H). apply lift_Ok in H5' as [_ ->].
  apply bind_Ok in H as (tv & l6 & H6 & H). apply lift_Ok in H6 as [_ ->].
  apply bind_Ok in H as (av & l7 & H7 & H). apply lift_Ok in H7 as [_ ->].
  apply bind_Ok in H as (sv & l8 & H8 & H). apply lift_Ok in H8 as [_ ->].
  apply bind_Ok in H as (u2 & l9 & H9 & H). apply assert_Ok in H9 as [_ ->].
  apply bind_Ok in H as (f & l10 & H10 & H).
  apply water_column_time_fraction_log in H10 as ->.
  apply ret_Ok in H as [_ ->].
  split; [eauto|]. now rewrite <- app_assoc.
Qed.

Lemma dissolve_rows_log s am nam kc mt ts rows :
  forall pc idx log pc' log',
    dissolve_rows phys self s am nam kc mt ts pc idx rows log
      = Ok (pc', log') ->
    (rows <> [] -> is_Some (waves self)) /\
    log' = log ++ concat (replicate (length rows) (element_queries mt)).
Proof.
  induction rows as [|[m ds] rows IH]; intros pc idx log pc' log' H.
  - apply ret_Ok in H as [_ ->]. split; [congruence|].
    cbn. now rewrite app_nil_r.
  - cbn [dissolve_rows] in H.
    apply bind_Ok in H as ([pc1 md] & l1 & He & H).
    apply dissolve_element_log in He as [Hw ->].
    apply IH in H as [_ ->]. split; [auto|].
    cbn [length replicate concat]. now rewrite <- !app_assoc.
Qed.

Lemma dissolve_oil_log d s mt ts log r log' :
  dissolve_oil phys self d s mt ts log = Ok (r, log') ->
  (element_rows d <> 0%nat -> is_Some (waves self)) /\
  log' = log ++ concat (replicate (element_rows d) (element_queries mt)).
Proof.
  unfold dissolve_oil. intros H.
  apply bind_Ok in H as (u & l1 & H1 & H). apply assert_Ok in H1 as [_ ->].
  apply bind_Ok in H as (kc & l2 & H2 & H). apply lift_Ok in H2 as [_ ->].
  apply bind_Ok in H as (pc & l3 & H3 & H).
  apply dissolve_rows_log in H3 as [Hw ->].
  apply ret_Ok in H as [_ ->]. split; [|reflexivity].
  intros Hn. apply Hw. intros E. apply Hn. unfold element_rows. now rewrite E.
Qed.

Lemma weather_substance_log mt ts mb sd log r log' :
  weather_substance phys self mt ts mb sd log = Ok (r, log') ->
  log' = log ++ bundle_queries mt sd.
Proof.
  unfold weather_substance, bundle_queries.
  destruct (decide (length (mass sd.2) = 0%nat)) as [E|E].
  - intros H. apply ret_Ok in H as [_ ->].
    apply nil_length_inv in E. rewrite decide_True by assumption.
    now rewrite app_nil_r.
  - intros H. rewrite decide_False by (intros E'; now rewrite E' in E).
    apply bind_Ok in H as (r1 & l1 & H1 & H).
    apply dissolve_oil_log in H1 as [_ ->].
    apply bind_Ok in H as (mb1 & l2 & H2 & H). apply lift_Ok in H2 as [_ ->].
    now apply ret_Ok in H as [_ ->].
Qed.

Lemma weather_loop_log mt ts sds :
  forall mb log r log',
    weather_loop phys self mt ts mb sds log = Ok (r, log') ->
    log' = log ++ concat (map (bundle_queries mt) sds).
Proof.
  induction sds as [|sd sds IH]; intros mb log r log' H.
  - apply ret_Ok in H as [_ ->]. cbn. now rewrite app_nil_r.
  - cbn [weather_loop] in H.
    apply bind_Ok in H as (r1 & l1 & H1 & H).
    apply weather_substance_log in H1 as ->.
    apply bind_Ok in H as (r2 & l2 & H2 & H). apply IH in H2 as ->.
    apply ret_Ok in H as [_ ->]. cbn [map concat]. now rewrite <- app_assoc.
Qed.
End QueryFacts.

(** * Further facts about steps *)

Section FurtherStepFacts.
Context (phys : PhysicalModels).
Local Open Scope float_scope.

(** The coefficients that [dissolve_oil] stores depend on the rows and on
    the entries beyond the rows only. *)
Lemma stored_K_ow_unique s d d' pc pc' :
  mass_components d' = mass_components d ->
  droplet_avg_size d' = droplet_avg_size d ->
  (forall j, element_rows d <= j ->
             partition_coeff d' !! j = partition_coeff d !! j) ->
  length (partition_coeff d') = length (partition_coeff d) ->
  stored_K_ow phys s d pc -> stored_K_ow phys s d' pc' -> pc' = pc.
Proof.
  intros Hc Hd Hhigh Hlen (L & kc & Hkc & Hrow & Hrest)
    (L' & kc' & Hkc' & Hrow' & Hrest').
  rewrite Hkc in Hkc'. injection Hkc' as <-.
  rewrite Hc, Hd in Hrow', Hrest'.
  apply list_eq. intros i.
  destruct (zip (mass_components d) (droplet_avg_size d) !! i)
    as [[m ds]|] eqn:E.
  - destruct (Hrow _ _ _ E) as (K & HK & ->).
    destruct (Hrow' _ _ _ E) as (K' & HK' & ->). congruence.
  - apply lookup_ge_None in E.
    rewrite (Hrest i E), (Hrest' i E). now apply Hhigh.
Qed.

(** One pass of the loop of [weather_elements] has one outcome for a
    bundle, whatever the time step, the model time and the provider. *)
Lemma substance_step_functional sd sd1 sd2 :
  substance_step phys sd sd1 -> substance_step phys sd sd2 -> sd1 = sd2.
Proof.
  destruct sd as [s d], sd1 as [s1 d1], sd2 as [s2 d2].
  intros [E1 H1] [E2 H2]. cbn [fst snd] in *. subst s1 s2. f_equal.
  destruct (decide (mass d = [])); [congruence|].
  destruct H1 as (pc1 & Hst1 & ->), H2 as (pc2 & Hst2 & ->).
  now rewrite (stored_K_ow_unique s d d pc1 pc2 eq_refl eq_refl
                 (fun _ _ => eq_refl) eq_refl Hst1 Hst2).
Qed.


Lemma substance_step_frame sd sd' :
  substance_step phys sd sd' ->
  fst sd' = fst sd /\ same_frame (snd sd) (snd sd').
Proof.
  destruct sd as [s d], sd' as [s' d']. intros [E H]. cbn [fst snd] in *.
  split; [assumption|].
  destruct (decide (mass d = [])); [subst d'; repeat split|].
  destruct H as (pc & (L & _) & ->). now repeat split.
Qed.

Lemma initialized_frame sd sd' :
  initialized sd sd' ->
  fst sd' = fst sd /\ same_frame (snd sd) (snd sd') /\
  mass (snd sd') = mass (snd sd).
Proof.
  destruct sd as [s d], sd' as [s' d']. intros [E (pc & -> & Hz)].
  cbn [fst snd] in *. split; [assumption|].
  apply Forall2_length in Hz. now repeat split.
Qed.

Lemma same_frame_bundle_ok s d d' :
  same_frame d d' -> bundle_ok s d -> bundle_ok s d'.
Proof.
  intros (Hc & _ & _ & Hd & _ & Hl) [(H1 & H2 & H3 & H4 & H5) Hv].
  unfold bundle_ok, shapes_ok. rewrite Hc, Hd, Hl. auto 10.
Qed.

Lemma add_zeros_zero k : add_zeros k 0 = 0.
Proof.
  induction k as [|k IH]; [reflexivity|].
  change (add_zeros (S k) 0) with (add_zeros k 0 + 0). now rewrite IH.
Qed.
End FurtherStepFacts.

(** * How a step fails *)

Section FailureFacts.
Context (phys : PhysicalModels) (self : Dissolution).
Local Open Scope float_scope.

Lemma bind_Raise {A B} (m : M A) (k : A -> M B) log e :
  m log = Raise e -> bind m k log = Raise e.
Proof. unfold bind. now intros ->. Qed.

(** Without a wave provider the loop body of [dissolve_oil] stops at
    [self.waves.water], after the coefficient has been stored. *)
Lemma dissolve_element_no_waves s kc mt ts pc idx m ds log :
  waves self = None ->
  length (molecular_weight s) = length (sara_type s) ->
  length (component_density s) = length (sara_type s) ->
  length kc = length (sara_type s) ->
  length m = length (sara_type s) ->
  (idx < length pc)%nat ->
  dissolve_element phys self s (aromatics_mask s)
    (map (xorb true) (aromatics_mask s)) kc mt ts pc idx m ds log
  = Raise AttributeError.
Proof.
  intros Hw Hmw Hrho Hkc Hm Hidx.
  unfold dissolve_element, overall_K_ow, oil_avg_density, get_waves, set_item.
  rewrite Hw.
  rewrite (broadcast_same_length PrimFloat.mul m kc) by congruence.
  rewrite (broadcast_same_length PrimFloat.div (zip_with _ m kc))
    by (rewrite length_zip_with_l_eq; congruence).
  rewrite (broadcast_same_length PrimFloat.div m (molecular_weight s))
    by congruence.
  rewrite (broadcast_same_length PrimFloat.mul (map _ m))
    by (rewrite length_map; congruence).
  unfold bind at 1. unfold lift at 1.
  unfold bind at 1. unfold lift at 1.
  rewrite decide_True by assumption.
  rewrite bool_decide_eq_true_2 by congruence.
  reflexivity.
Qed.

Lemma K_ow_components_shapes s :
  length (molecular_weight s) = length (sara_type s) ->
  length (component_density s) = length (sara_type s) ->
  exists kc, K_ow_components phys s (aromatics_mask s) = Ok kc /\
             length kc = length (sara_type s).
Proof.
  intros Hmw Hrho. unfold K_ow_components.
  assert (Ham : length (aromatics_mask s) = length (sara_type s))
    by (unfold aromatics_mask; now rewrite length_map).
  assert (Hlh : length (zip_with (LeeHuibers_partition_coeff phys)
                          (molecular_weight s) (component_density s))
                = length (sara_type s))
    by (rewrite length_zip_with_l_eq; congruence).
  rewrite broadcast_same_length by congruence.
  eexists. split; [reflexivity|].
  rewrite length_zip_with_l_eq; congruence.
Qed.

(** On consistent shapes, [dissolve_oil] without a wave provider returns
    when there is no row to go through and raises [AttributeError]
    otherwise. *)
Lemma dissolve_oil_no_waves d s mt ts log :
  waves self = None -> shapes_ok s d ->
  dissolve_oil phys self d s mt ts log
  = if decide (element_rows d = 0%nat)
    then Ok ((set_partition_coeff d (partition_coeff d),
              np_zeros (length (mass d))), log)
    else Raise AttributeError.
Proof.
  intros Hw (Hmw & Hrho & Hrows & Hds & Hpc).
  destruct (K_ow_components_shapes s Hmw Hrho) as (kc & Hkc & Lkc).
  unfold dissolve_oil. rewrite bool_decide_eq_true_2 by congruence.
  rewrite Hkc. unfold bind at 1. unfold assert_ at 1. unfold ret at 1.
  unfold bind at 1. unfold lift at 1.
  unfold element_rows.
  destruct (zip (mass_components d) (droplet_avg_size d))
    as [|[m ds] rows] eqn:E.
  - rewrite decide_True by reflexivity. reflexivity.
  - rewrite decide_False by discriminate.
    apply bind_Raise. cbn [dissolve_rows]. apply bind_Raise.
    assert (Hin : (m, ds) ∈ zip (mass_components d) (droplet_avg_size d))
      by (rewrite E; left).
    apply elem_of_zip_l in Hin.
    apply dissolve_element_no_waves; auto.
    + rewrite Forall_forall in Hrows. auto.
    + assert (L : length (zip (mass_components d) (droplet_avg_size d))
                  = S (length rows)) by now rewrite E.
      rewrite length_zip, Hds in L. lia.
Qed.

Lemma weather_substance_raises mt ts mb sd log e :
  mass (snd sd) <> [] ->
  dissolve_oil phys self (snd sd) (fst sd) mt ts log = Raise e ->
  weather_substance phys self mt ts mb sd log = Raise e.
Proof.
  intros Hne He. unfold weather_substance.
  rewrite decide_False by (intros E; now apply nil_length_inv in E).
  now apply bind_Raise.
Qed.

Lemma weather_substance_no_rows mt ts mb sd log :
  waves self = None -> shapes_ok (fst sd) (snd sd) ->
  mass (snd sd) <> [] -> element_rows (snd sd) = 0%nat ->
  is_Some (mb !! "dissolution"%string) ->
  exists r, weather_substance phys self mt ts mb sd log = Ok (r, log) /\
            is_Some (fst r !! "dissolution"%string).
Proof.
  intros Hw Hsd Hne Hr [v Hv]. unfold weather_substance.
  rewrite decide_False by (intros E'; now apply nil_length_inv in E').
  assert (Hd := dissolve_oil_no_waves (snd sd) (fst sd) mt ts log Hw Hsd).
  rewrite decide_True in Hd by assumption.
  rewrite (bind_Ok_intro _ _ _ _ _ Hd). cbn [fst snd].
  unfold add_dissolution. rewrite Hv. unfold bind, lift, ret.
  eexists. split; [reflexivity|]. cbn [fst]. rewrite lookup_insert_eq. eauto.
Qed.

(** Without a wave provider the loop of [weather_elements] raises
    [AttributeError] as soon as a bundle with elements has a row. *)
Lemma weather_loop_no_waves mt ts sds :
  waves self = None ->
  Forall (fun sd : Substance * Data => shapes_ok (fst sd) (snd sd)) sds ->
  Exists (fun sd : Substance * Data =>
            mass (snd sd) <> [] /\ element_rows (snd sd) <> 0%nat) sds ->
  forall mb log,
    is_Some (mb !! "dissolution"%string) ->
    weather_loop phys self mt ts mb sds log = Raise AttributeError.
Proof.
  intros Hw Hall Hex. induction Hall as [|sd sds Hsd Hall IH];
    intros mb log Hmb; [inversion Hex|].
  cbn [weather_loop].
  destruct (decide (mass (snd sd) = [])) as [E|E].
  - unfold weather_substance at 1.
    rewrite decide_True by (now rewrite E). unfold bind at 1, ret at 1.
    cbn [fst snd]. apply bind_Raise. apply IH; [|assumption].
    inversion Hex as [? ? [Hne _]|]; subst; [contradiction|assumption].
  - destruct (decide (element_rows (snd sd) = 0%nat)) as [R|R].
    + destruct (weather_substance_no_rows mt ts mb sd log Hw Hsd E R Hmb)
        as (r & Hr & Hkey).
      rewrite (bind_Ok_intro _ _ _ _ _ Hr).
      apply bind_Raise. apply IH; [|assumption].
      inversion Hex as [? ? [_ Hr']|]; subst; [contradiction|assumption].
    + apply bind_Raise. apply weather_substance_raises; [assumption|].
      rewrite (dissolve_oil_no_waves _ _ _ _ _ Hw Hsd).
      now rewrite decide_False.
Qed.

(** Without the ledger key the loop of [weather_elements] raises [KeyError]
    at the first bundle with elements. *)
Lemma weather_loop_no_key mt ts sds wv :
  waves self = Some wv ->
  provider_answers wv mt -> models_answer phys ->
  Forall (fun sd : Substance * Data =>
            bundle_ok (fst sd) (snd sd) /\ droplets_positive (snd sd)) sds ->
  Exists (fun sd : Substance * Data => mass (snd sd) <> []) sds ->
  forall mb log,
    mb !! "dissolution"%string = None ->
    weather_loop phys self mt ts mb sds log = Raise KeyError.
Proof.
  intros Hw Hprov Hmod Hall Hex.
  induction Hall as [|sd sds [Hsd Hdrops] Hall IH];
    intros mb log Hmb; [inversion Hex|].
  cbn [weather_loop].
  destruct (decide (mass (snd sd) = [])) as [E|E].
  - unfold weather_substance at 1.
    rewrite decide_True by (now rewrite E). unfold bind at 1, ret at 1.
    cbn [fst snd]. apply bind_Raise. apply IH; [|assumption].
    inversion Hex; subst; [contradiction|assumption].
  - apply bind_Raise. unfold weather_substance.
    rewrite decide_False by (intros E'; now apply nil_length_inv in E').
    destruct (dissolve_oil_returns phys self (snd sd) (fst sd) mt ts log wv
                Hw Hprov Hmod Hsd Hdrops) as (pc & l1 & Hd).
    rewrite (bind_Ok_intro _ _ _ _ _ Hd). cbn [fst snd].
    apply bind_Raise. unfold lift, add_dissolution. now rewrite Hmb.
Qed.
End FailureFacts.

(** * Further facts about initialisation *)

Section FurtherInitFacts.
Local Open Scope float_scope.

Lemma np_unique_elem (s : Z) (l : list Z) : s ∈ l -> s ∈ np_unique l.
Proof.
  intros H. unfold np_unique. apply elem_of_remove_dups.
  now rewrite merge_sort_Permutation.
Qed.

Lemma bool_index_elem {A} (a : list A) mask masked i x :
  bool_index a mask = Ok masked ->
  a !! i = Some x -> mask !! i = Some true -> x ∈ masked.
Proof.
  unfold bool_index. destruct (decide _); [|discriminate].
  intros [= <-] Ha Hm. apply list_elem_of_omap. exists (x, true).
  split; [|reflexivity].
  apply list_elem_of_lookup. exists i. apply lookup_zip_Some. auto.
Qed.

(** The loop over the spill numbers stores [0.0] exactly at the rows that
    are under the mask and carry one of the spill numbers. *)
Lemma initialize_spills_exact mask spills s_nums :
  length spills = length mask ->
  forall pc,
    length pc = length mask ->
    exists pc',
      initialize_spills mask spills pc s_nums = Ok pc' /\
      length pc' = length pc /\
      forall i x b s,
        pc !! i = Some x -> mask !! i = Some b -> spills !! i = Some s ->
        pc' !! i = Some (if b && bool_decide (s ∈ s_nums) then 0 else x).
Proof.
  intros Hs. induction s_nums as [|s_num rest IH]; intros pc Hpc.
  - exists pc. split; [reflexivity|]. split; [reflexivity|].
    intros i x b s Hx _ _. rewrite bool_decide_eq_false_2 by apply not_elem_of_nil.
    now rewrite andb_false_r.
  - cbn [initialize_spills]. unfold initialize_spill.
    rewrite broadcast_same_length by (now rewrite length_map).
    unfold mask_assign.
    rewrite decide_True
      by (rewrite length_zip_with_l_eq; [congruence|now rewrite length_map]).
    set (pc1 := zip_with _ pc _).
    assert (L1 : length pc1 = length pc).
    { unfold pc1. rewrite length_zip_with_l_eq; [reflexivity|].
      rewrite length_zip_with_l_eq; [congruence|now rewrite length_map]. }
    destruct (IH pc1) as (pc' & Hrun & Hlen & Hval); [congruence|].
    exists pc'. split; [assumption|]. split; [congruence|].
    intros i x b s Hx Hb Hsp.
    assert (H1 : pc1 !! i = Some (if b && Z.eqb s_num s then 0 else x)).
    { unfold pc1. rewrite !lookup_zip_with, Hx, Hb. cbn.
      rewrite list_lookup_fmap, Hsp. reflexivity. }
    rewrite (Hval i _ b s H1 Hb Hsp).
    destruct b; cbn [andb]; [|reflexivity].
    destruct (Z.eqb_spec s_num s) as [->|Hne].
    + rewrite (bool_decide_eq_true_2 (s ∈ s :: rest)) by left.
      now destruct (bool_decide (s ∈ rest)).
    + destruct (decide (s ∈ rest)) as [Hin|Hin].
      * rewrite (bool_decide_eq_true_2 (s ∈ rest)) by assumption.
        rewrite (bool_decide_eq_true_2 (s ∈ s_num :: rest)) by now right.
        reflexivity.
      * rewrite (bool_decide_eq_false_2 (s ∈ rest)) by assumption.
        rewrite (bool_decide_eq_false_2 (s ∈ s_num :: rest)); [reflexivity|].
        intros [E|E]%elem_of_cons; [congruence|contradiction].
Qed.

Lemma set_partition_coeff_same d :
  set_partition_coeff d (partition_coeff d) = d.
Proof. now destruct d. Qed.

(** One pass of the loop of [_initialize_k_ow] on a bundle whose
    [spill_num] has the right length. *)
Lemma initialize_substance_exact n sd :
  spill_shape_ok sd ->
  initialize_substance n (snd sd)
  = Ok ((n + length (partition_coeff (snd sd)))%nat, snd (reset_sentinels sd)).
Proof.
  destruct sd as [s d]. unfold spill_shape_ok, reset_sentinels.
  cbn [fst snd]. intros Hshape. unfold initialize_substance.
  destruct (decide (length (partition_coeff d) = 0%nat)) as [E|E].
  - apply nil_length_inv in E. rewrite E. cbn [length map].
    rewrite Nat.add_0_r. rewrite <- E. now rewrite set_partition_coeff_same.
  - assert (Hne : partition_coeff d <> []) by (intros E'; now rewrite E' in E).
    specialize (Hshape Hne).
    set (mask := map (fun k => k =? 0) (partition_coeff d)).
    assert (Lm : length mask = length (partition_coeff d))
      by (unfold mask; now rewrite length_map).
    destruct (bool_index (spill_num d) mask) as [masked|e] eqn:Hb.
    2:{ unfold bool_index in Hb. rewrite decide_True in Hb by congruence.
        discriminate. }
    destruct (initialize_spills_exact mask (spill_num d) (np_unique masked)
                (eq_trans Hshape (eq_sym Lm)) (partition_coeff d) (eq_sym Lm))
      as (pc' & -> & Hlen & Hval).
    rewrite Lm. cbn [snd]. f_equal. f_equal.
    assert (Hpc : pc' = map reset_sentinel (partition_coeff d));
      [|now rewrite Hpc].
    apply list_eq. intros i.
    rewrite list_lookup_fmap.
    destruct (partition_coeff d !! i) as [x|] eqn:Hx; cbn.
    + destruct (lookup_lt_is_Some_2 (spill_num d) i) as [sp Hsp].
      { rewrite Hshape. now apply lookup_lt_Some in Hx. }
      assert (Hm : mask !! i = Some (x =? 0))
        by (unfold mask; now rewrite list_lookup_fmap, Hx).
      rewrite (Hval i x _ sp Hx Hm Hsp). unfold reset_sentinel.
      destruct (x =? 0) eqn:Ez; [|reflexivity]. cbn [andb].
      rewrite bool_decide_eq_true_2; [reflexivity|].
      apply np_unique_elem. eapply bool_index_elem; eauto.
    + apply lookup_ge_None. apply lookup_ge_None in Hx. lia.
Qed.

Lemma total_rows_cons sd sds :
  total_rows (sd :: sds)
  = (length (partition_coeff (snd sd)) + total_rows sds)%nat.
Proof. reflexivity. Qed.

Lemma initialize_loop_exact sds :
  Forall spill_shape_ok sds ->
  forall n,
    initialize_loop n sds = Ok ((n + total_rows sds)%nat, map reset_sentinels sds).
Proof.
  induction 1 as [|[s d] sds Hsd _ IH]; intros n.
  - cbn. unfold total_rows. cbn. now rewrite Nat.add_0_r.
  - cbn [initialize_loop].
    pose proof (initialize_substance_exact n (s, d) Hsd) as E.
    cbn [snd] in E. rewrite E. unfold reset_sentinels at 1. cbn [snd].
    rewrite IH, total_rows_cons. cbn [snd map]. now rewrite Nat.add_assoc.
Qed.

Lemma reset_sentinel_twice k : reset_sentinel (reset_sentinel k) = reset_sentinel k.
Proof.
  unfold reset_sentinel. destruct (k =? 0) eqn:E; [reflexivity|]. now rewrite E.
Qed.

Lemma reset_sentinels_twice sd :
  reset_sentinels (reset_sentinels sd) = reset_sentinels sd.
Proof.
  destruct sd as [s d]. unfold reset_sentinels. cbn. do 2 f_equal.
  rewrite map_map. apply map_ext. intros k. apply reset_sentinel_twice.
Qed.

Lemma reset_sentinels_rows sds :
  total_rows (map reset_sentinels sds) = total_rows sds.
Proof.
  unfold total_rows. rewrite map_map. f_equal. apply map_ext.
  intros [s d]. cbn. now rewrite length_map.
Qed.

Lemma reset_sentinels_shape sds :
  Forall spill_shape_ok sds -> Forall spill_shape_ok (map reset_sentinels sds).
Proof.
  intros H. apply Forall_fmap. eapply Forall_impl; [exact H|].
  intros [s d] Hok. unfold spill_shape_ok in *. cbn in *.
  rewrite length_map. intros Hne. apply Hok. intros E. apply Hne.
  now rewrite E.
Qed.
End FurtherInitFacts.

(** * Runs of initialisations and steps *)

Section RunFacts.
Context (phys : PhysicalModels).
Local Open Scope float_scope.

Lemma add_zeros_add p k v : add_zeros p (add_zeros k v) = add_zeros (p + k) v.
Proof. unfold add_zeros. now rewrite Nat.iter_add. Qed.

(** Along a run the ledger entry only ever receives additions of [0.0],
    and no other key is touched. *)
Lemma reachable_ledger sc sc' :
  reachable phys sc sc' ->
  (exists k, ledger sc' = add_zeros k <$> ledger sc) /\
  (forall key, key <> "dissolution"%string ->
               mass_balance sc' !! key = mass_balance sc !! key).
Proof.
  induction 1 as [sc|self sc sc1 sc2 n _ [[k Hk] Ho] Hi
                 |self sc sc1 sc2 ts mt log log' _ [[k Hk] Ho] Hw].
  - split; [exists 0%nat; unfold ledger; cbn;
            now destruct (mass_balance sc !! "dissolution"%string)|auto].
  - apply initialize_data_Ok in Hi as [[_ ->]|(_ & _ & _ & Hmb & _)];
      [split; eauto|].
    unfold ledger in *. rewrite Hmb. split; eauto.
  - apply (weather_elements_Ok phys self) in Hw
      as [(_ & -> & _)|(_ & _ & _ & _ & Hmb)]; [split; eauto|].
    unfold ledger in *. rewrite Hmb. split.
    + exists (processed (substance_data sc1) + k)%nat.
      rewrite ledger_plus_zeros_lookup, Hk.
      destruct (mass_balance sc !! "dissolution"%string); cbn; [|reflexivity].
      now rewrite add_zeros_add.
    + intros key Hkey. rewrite ledger_plus_zeros_other by assumption. auto.
Qed.

Lemma same_frame_refl d : same_frame d d.
Proof. now repeat split. Qed.

Lemma same_frame_trans d1 d2 d3 :
  same_frame d1 d2 -> same_frame d2 d3 -> same_frame d1 d3.
Proof.
  intros (A1 & A2 & A3 & A4 & A5 & A6) (B1 & B2 & B3 & B4 & B5 & B6).
  repeat split; congruence.
Qed.

Lemma bundle_frame_trans sd1 sd2 sd3 :
  bundle_frame sd1 sd2 -> bundle_frame sd2 sd3 -> bundle_frame sd1 sd3.
Proof.
  intros [E1 F1] [E2 F2]. split; [congruence|].
  eapply same_frame_trans; eauto.
Qed.

Lemma bundle_frame_all_refl sds : Forall2 bundle_frame sds sds.
Proof.
  induction sds; constructor; [|assumption].
  split; [reflexivity|apply same_frame_refl].
Qed.

(** Along a run the release count, the substances and the arrays of
    [same_frame] stay as they are. *)
Lemma reachable_frame sc sc' :
  reachable phys sc sc' ->
  num_released sc' = num_released sc /\
  Forall2 bundle_frame (substance_data sc) (substance_data sc').
Proof.
  induction 1 as [sc|self sc sc1 sc2 n _ [Hn Hf] Hi
                 |self sc sc1 sc2 ts mt log log' _ [Hn Hf] Hw].
  - split; [reflexivity|apply bundle_frame_all_refl].
  - apply initialize_data_Ok in Hi as [[_ ->]|(_ & _ & Hn2 & _ & Hall)];
      [auto|].
    split; [congruence|].
    eapply Forall2_trans; [|exact Hf|exact Hall].
    intros x y z Hxy Hyz. eapply bundle_frame_trans; [exact Hxy|].
    apply initialized_frame in Hyz as (E & F & _). now split.
  - apply (weather_elements_Ok phys self) in Hw
      as [(_ & -> & _)|(_ & _ & Hn2 & Hall & _)]; [auto|].
    split; [congruence|].
    eapply Forall2_trans; [|exact Hf|exact Hall].
    intros x y z Hxy Hyz. eapply bundle_frame_trans; [exact Hxy|].
    now apply substance_step_frame in Hyz.
Qed.

Lemma bundle_frame_bundle_ok sds sds' :
  Forall2 bundle_frame sds sds' ->
  Forall (fun sd : Substance * Data =>
            bundle_ok (fst sd) (snd sd) /\ droplets_positive (snd sd)) sds ->
  Forall (fun sd : Substance * Data =>
            bundle_ok (fst sd) (snd sd) /\ droplets_positive (snd sd)) sds'.
Proof.
  induction 1 as [|sd sd' sds sds' [E F] _ IH]; intros Hall; [constructor|].
  inversion Hall as [|? ? [Hok Hdrops] Hrest]; subst.
  constructor; [|auto]. split.
  - rewrite E. eapply same_frame_bundle_ok; eauto.
  - destruct F as (_ & _ & _ & Hd & _). unfold droplets_positive.
    now rewrite Hd.
Qed.

(** A run from a container on which a step raises nothing leads to such a
    container. *)
Lemma reachable_ready self mt sc sc' :
  step_ready phys self mt sc -> reachable phys sc sc' ->
  step_ready phys self mt sc'.
Proof.
  intros (Hw & Hmod & Hl & Hb) Hr.
  split; [assumption|]. split; [assumption|]. split.
  - destruct (reachable_ledger _ _ Hr) as [[k ->] _].
    destruct Hl as [v ->]. cbn. eauto.
  - destruct (reachable_frame _ _ Hr) as [_ Hf].
    eapply bundle_frame_bundle_ok; eauto.
Qed.
End RunFacts.

(** * Further facts about the computed values *)

Section ValueFacts.
Local Open Scope float_scope.

Lemma mul_not_finite_l (a b : float) :
  is_finite a = false -> is_finite (a * b) = false.
Proof.
  rewrite !is_finite_spec, FloatAxioms.mul_spec.
  destruct (Prim2SF a) as [s|s| |s m e]; try discriminate; intros _;
    destruct (Prim2SF b) as [s'|s'| |s' m' e']; reflexivity.
Qed.


End ValueFacts.

(** * What the outcome of a step depends on *)

Section DependenceFacts.
Local Open Scope float_scope.

(** Of the physical models, only the partition values reach the outcome of
    a pass. *)
Lemma substance_step_models phys1 phys2 sd sd' :
  LeeHuibers_partition_coeff phys1 = LeeHuibers_partition_coeff phys2 ->
  substance_step phys1 sd sd' -> substance_step phys2 sd sd'.
Proof.
  intros E [Hs H]. split; [assumption|].
  destruct (decide (mass (snd sd) = [])); [assumption|].
  destruct H as (pc & (L & kc & Hkc & Hrest) & Hd).
  exists pc. split; [|assumption]. split; [assumption|].
  exists kc. split; [|assumption].
  unfold K_ow_components in *. now rewrite <- E.
Qed.

(** The sentinel that [initialize_data] stores does not reach the outcome
    of a pass over a bundle of aligned rows. *)
Lemma substance_step_reinit phys sd sd0 sd1 sd2 :
  rows_aligned sd -> initialized sd sd0 ->
  substance_step phys sd sd1 -> substance_step phys sd0 sd2 -> sd2 = sd1.
Proof.
  destruct sd as [s d], sd0 as [s0 d0], sd1 as [s1 d1], sd2 as [s2 d2].
  unfold rows_aligned, initialized, substance_step. cbn [fst snd].
  intros [(_ & _ & _ & Hds & Hpc) Hms] [E0 (pc0 & -> & Hz)] [E1 H1] [E2 H2].
  subst s0 s1 s2. f_equal.
  pose proof (Forall2_length _ _ _ Hz) as L0.
  change (mass (set_partition_coeff d pc0)) with (mass d) in H2.
  destruct (decide (mass d = [])) as [E|E].
  - subst d1 d2. rewrite E in Hms. cbn in Hms.
    assert (partition_coeff d = []) as Hnil by (apply nil_length_inv; lia).
    rewrite Hnil in L0. cbn in L0. symmetry in L0.
    apply nil_length_inv in L0. subst pc0. rewrite <- Hnil.
    apply set_partition_coeff_same.
  - destruct H1 as (pc1 & Hst1 & ->), H2 as (pc2 & Hst2 & ->). cbn.
    assert (pc2 = pc1) as ->; [|reflexivity].
    eapply (stored_K_ow_unique phys s d (set_partition_coeff d pc0) pc1 pc2);
      [reflexivity|reflexivity| |cbn; lia|exact Hst1|exact Hst2].
    intros j Hj. cbn [partition_coeff set_partition_coeff].
    unfold element_rows in Hj. rewrite length_zip in Hj.
    rewrite !(proj2 (lookup_ge_None _ _)); [reflexivity|lia|lia].
Qed.
End DependenceFacts.

(** * Further facts about sequences of bundles *)

Section SequenceFacts.
Local Open Scope float_scope.


Lemma initialized_all_refl sds : Forall2 initialized sds sds.
Proof. induction sds; constructor; [apply initialized_refl|assumption]. Qed.

Lemma initialized_processed sds sds0 :
  Forall2 initialized sds sds0 -> processed sds0 = processed sds.
Proof.
  induction 1 as [|sd sd0 sds sds0 H _ IH]; [reflexivity|].
  rewrite !processed_cons, IH.
  apply initialized_frame in H as (_ & _ & ->). reflexivity.
Qed.

Lemma steps_reinit phys sds sds0 :
  Forall2 initialized sds sds0 ->
  forall sds1 sds2,
    Forall rows_aligned sds ->
    Forall2 (substance_step phys) sds sds1 ->
    Forall2 (substance_step phys) sds0 sds2 -> sds2 = sds1.
Proof.
  induction 1 as [|sd sd0 sds sds0 H _ IH]; intros sds1 sds2 Hal H1 H2;
    inversion H1; inversion H2; subst; [reflexivity|].
  inversion Hal; subst.
  f_equal; [eapply substance_step_reinit; eauto|eauto].
Qed.

End SequenceFacts.

(** * Further properties of the weatherer *)

Section FurtherProperties.
Local Open Scope float_scope.

(** X1.  After [prepare_for_model_run] on a weatherer that is on, the
    ledger entry of the process is [0.0], and it is still exactly [0.0]
    after any sequence of completed [initialize_data] calls and
    [weather_elements] steps, whatever the weatherer is at each call. *)
Theorem ledger_stays_zero
    (phys : PhysicalModels) (self : Dissolution) (sc sc' : SpillContainer) :
  on self = true ->
  reachable phys (prepare_for_model_run self sc) sc' ->
  ledger sc' = Some 0.
Proof.
  intros Hon Hr. destruct (reachable_ledger phys _ _ Hr) as [[k ->] _].
  unfold ledger, prepare_for_model_run. rewrite Hon. cbn [mass_balance].
  rewrite lookup_insert_eq. cbn. now rewrite add_zeros_zero.
Qed.

Lemma ledger_stays_zero_witness :
  exists sc1 sc2 sc3 log2 log3,
    initialize_data scenario_self
      (prepare_for_model_run scenario_self five_rows_sc) 5 = Ok sc1 /\
    weather_elements stand_in_models
      (prepare_for_model_step scenario_self sc1 scenario_time_step 0)
      sc1 scenario_time_step 0 [] = Ok (sc2, log2) /\
    weather_elements stand_in_models
      (prepare_for_model_step self_outside_window sc2 scenario_time_step 900)
      sc2 scenario_time_step 900 log2 = Ok (sc3, log3) /\
    ledger sc3 = Some 0.
Proof.
  eexists _, _, _, _, _.
  assert (H1 : initialize_data scenario_self
                 (prepare_for_model_run scenario_self five_rows_sc) 5
               = Ok _) by (vm_compute; reflexivity).
  split; [exact H1|].
  match goal with
  | |- weather_elements ?p ?s ?c ?t ?m ?l = _ /\ _ =>
      assert (H2 : weather_elements p s c t m l = Ok (_, _))
        by (vm_compute; reflexivity)
  end.
  split; [exact H2|].
  match goal with
  | |- weather_elements ?p ?s ?c ?t ?m ?l = _ /\ _ =>
      assert (H3 : weather_elements p s c t m l = Ok (_, _))
        by (vm_compute; reflexivity)
  end.
  split; [exact H3|].
  apply (ledger_stays_zero stand_in_models scenario_self five_rows_sc _
           eq_refl).
  exact (reach_weather _ _ _ _ _ _ _ _ _
           (reach_weather _ _ _ _ _ _ _ _ _
              (reach_initialize _ _ _ _ _ _ (reach_here _ _) H1) H2) H3).
Defined.

(** X2.  Along any sequence of completed [initialize_data] calls and
    [weather_elements] steps, whatever the weatherer is at each call, the
    ledger entry of the process keeps its value, except that a negative
    zero becomes [0.0]; an absent entry stays absent, and no other key of
    the ledger changes. *)
Theorem ledger_keeps_value
    (phys : PhysicalModels) (sc sc' : SpillContainer) :
  reachable phys sc sc' ->
  (ledger sc' = ledger sc \/
   (ledger sc = Some (-0) /\ ledger sc' = Some 0)) /\
  (forall key, key <> "dissolution"%string ->
               mass_balance sc' !! key = mass_balance sc !! key).
Proof.
  intros Hr. destruct (reachable_ledger phys _ _ Hr) as [[k Hk] Ho].
  split; [|assumption]. rewrite Hk.
  destruct (ledger sc) as [v|]; cbn; [|now left].
  destruct (add_zeros_cases k v) as [->|[-> ->]]; [now left|now right].
Qed.

Lemma ledger_keeps_value_witness :
  exists sc1 log1 sc2 log2,
    weather_elements stand_in_models scenario_self five_rows_sc
      scenario_time_step 0 [] = Ok (sc1, log1) /\
    weather_elements stand_in_models self_outside_window sc1
      scenario_time_step 900 log1 = Ok (sc2, log2) /\
    (ledger sc2 = ledger five_rows_sc \/
     (ledger five_rows_sc = Some (-0) /\ ledger sc2 = Some 0)).
Proof.
  eexists _, _, _, _.
  assert (H1 : weather_elements stand_in_models scenario_self five_rows_sc
                 scenario_time_step 0 [] = Ok (_, _))
    by (vm_compute; reflexivity).
  split; [exact H1|].
  match goal with
  | |- weather_elements ?p ?s ?c ?t ?m ?l = _ /\ _ =>
      assert (H2 : weather_elements p s c t m l = Ok (_, _))
        by (vm_compute; reflexivity)
  end.
  split; [exact H2|].
  apply (ledger_keeps_value stand_in_models five_rows_sc).
  exact (reach_weather _ _ _ _ _ _ _ _ _
           (reach_weather _ _ _ _ _ _ _ _ _ (reach_here _ _) H1) H2).
Defined.

(** X3.  Along any sequence of completed [initialize_data] calls and
    [weather_elements] steps, whatever the weatherer is at each call, the
    release count, the substances, and the arrays [mass_components],
    [density], [viscosity], [droplet_avg_size] and [spill_num] stay as
    they are, and [partition_coeff] keeps its length. *)
Theorem run_keeps_frame
    (phys : PhysicalModels) (sc sc' : SpillContainer) :
  reachable phys sc sc' ->
  num_released sc' = num_released sc /\
  Forall2 bundle_frame (substance_data sc) (substance_data sc').
Proof. apply reachable_frame. Qed.

Lemma run_keeps_frame_witness :
  exists sc1 sc2 log2 sc3 log3,
    initialize_data scenario_self neg_zero_sc 1 = Ok sc1 /\
    weather_elements stand_in_models scenario_self sc1 scenario_time_step 0 []
      = Ok (sc2, log2) /\
    weather_elements stand_in_models self_outside_window sc2
      scenario_time_step 900 log2 = Ok (sc3, log3) /\
    num_released sc3 = num_released neg_zero_sc /\
    Forall2 bundle_frame (substance_data neg_zero_sc) (substance_data sc3).
Proof.
  eexists _, _, _, _, _.
  assert (H1 : initialize_data scenario_self neg_zero_sc 1 = Ok _)
    by (vm_compute; reflexivity).
  split; [exact H1|].
  match goal with
  | |- weather_elements ?p ?s ?c ?t ?m ?l = _ /\ _ =>
      assert (H2 : weather_elements p s c t m l = Ok (_, _))
        by (vm_compute; reflexivity)
  end.
  split; [exact H2|].
  match goal with
  | |- weather_elements ?p ?s ?c ?t ?m ?l = _ /\ _ =>
      assert (H3 : weather_elements p s c t m l = Ok (_, _))
        by (vm_compute; reflexivity)
  end.
  split; [exact H3|].
  apply (run_keeps_frame stand_in_models neg_zero_sc).
  exact (reach_weather _ _ _ _ _ _ _ _ _
           (reach_weather _ _ _ _ _ _ _ _ _
              (reach_initialize _ _ _ _ _ _ (reach_here _ _) H1) H2) H3).
Defined.

(** X4.  When the wave provider is set and answers at a model time, the
    physical models answer, the ledger has the entry of the process, and
    every bundle has consistent shapes, positive droplet sizes and passes
    the volume assertion, a step at that model time completes, and it
    still does after any sequence of completed [initialize_data] calls
    and steps. *)
Theorem ready_run_never_raises
    (phys : PhysicalModels) (self : Dissolution) (sc sc' : SpillContainer)
    (time_step : float) (model_time : Z) (log : list env_query) :
  step_ready phys self model_time sc -> reachable phys sc sc' ->
  exists sc'' log',
    weather_elements phys self sc' time_step model_time log
    = Ok (sc'', log').
Proof.
  intros Hr Hrun. apply weather_elements_returns.
  eapply reachable_ready; eauto.
Qed.

Lemma ready_run_never_raises_witness :
  exists sc1 log1 sc2 log2,
    weather_elements stand_in_models scenario_self scenario_sc
      scenario_time_step 0 [] = Ok (sc1, log1) /\
    weather_elements stand_in_models scenario_self sc1 1 7 []
      = Ok (sc2, log2).
Proof.
  eexists _, _.
  assert (H1 : weather_elements stand_in_models scenario_self scenario_sc
                 scenario_time_step 0 [] = Ok (_, _))
    by (vm_compute; reflexivity).
  destruct (ready_run_never_raises stand_in_models scenario_self scenario_sc
              _ 1 7 [] (scenario_ready 7)
              (reach_weather _ _ _ _ _ _ _ _ _ (reach_here _ _) H1))
    as (sc2 & l2 & H2).
  exists sc2, l2. split; [exact H1|exact H2].
Defined.

(** X5.  A completed step sends, for every element of every bundle that
    has elements, four queries to the wave provider, in the order water
    density, peak wave period, wave height and wind speed, the last three
    at the model time; a step of an inactive weatherer or on a container
    that has released nothing sends none. *)
Theorem step_query_log
    (phys : PhysicalModels) (self : Dissolution) (sc : SpillContainer)
    (time_step : float) (model_time : Z) (log : list env_query)
    (sc' : SpillContainer) (log' : list env_query) :
  weather_elements phys self sc time_step model_time log = Ok (sc', log') ->
  log' = log ++ step_queries self sc model_time.
Proof.
  unfold weather_elements, step_queries. intros H.
  destruct (negb (active self)).
  { apply ret_Ok in H as [_ ->]. now rewrite app_nil_r. }
  destruct (decide (num_released sc = 0%nat)).
  { apply ret_Ok in H as [_ ->]. now rewrite app_nil_r. }
  apply bind_Ok in H as (r & l1 & Hloop & H).
  apply ret_Ok in H as [_ ->].
  now apply weather_loop_log in Hloop.
Qed.

Lemma step_query_log_witness :
  exists sc' log',
    weather_elements stand_in_models scenario_self five_rows_sc
      scenario_time_step 7 [] = Ok (sc', log') /\
    log' = [] ++ step_queries scenario_self five_rows_sc 7.
Proof.
  eexists _, _.
  assert (H : weather_elements stand_in_models scenario_self five_rows_sc
                scenario_time_step 7 [] = Ok (_, _))
    by (vm_compute; reflexivity).
  split; [exact H|].
  exact (step_query_log stand_in_models scenario_self five_rows_sc
           scenario_time_step 7 [] _ _ H).
Defined.

(** X6.  A step of an active weatherer on a container whose ledger has no
    entry for the process (as when [prepare_for_model_run] was not called)
    raises [KeyError] as soon as a bundle has elements, when everything
    before the ledger update succeeds: the wave provider is set and
    answers at the model time, the physical models answer, and the bundles
    have consistent shapes and positive droplet sizes and pass the volume
    assertion. *)
Theorem step_without_ledger_entry
    (phys : PhysicalModels) (self : Dissolution) (sc : SpillContainer)
    (time_step : float) (model_time : Z) (log : list env_query)
    (wv : Waves) :
  active self = true -> num_released sc <> 0%nat ->
  waves self = Some wv -> provider_answers wv model_time ->
  models_answer phys ->
  Forall (fun sd : Substance * Data =>
            bundle_ok (fst sd) (snd sd) /\ droplets_positive (snd sd))
    (substance_data sc) ->
  Exists (fun sd : Substance * Data => mass (snd sd) <> [])
    (substance_data sc) ->
  ledger sc = None ->
  weather_elements phys self sc time_step model_time log = Raise KeyError.
Proof.
  intros Ha Hn Hw Hprov Hmod Hall Hex Hl. unfold weather_elements.
  rewrite Ha. cbn [negb]. rewrite decide_False by assumption.
  apply bind_Raise. now apply (weather_loop_no_key phys self _ _ _ wv).
Qed.

Lemma step_without_ledger_entry_witness :
  weather_elements stand_in_models scenario_self unprepared_sc
    scenario_time_step 0 [] = Raise KeyError.
Proof.
  apply (step_without_ledger_entry stand_in_models scenario_self
           unprepared_sc scenario_time_step 0 [] scenario_waves eq_refl
           (fun E => O_S 0 (eq_sym E)) eq_refl (scenario_waves_answer 0)
           stand_in_models_answer
           (proj2 (proj2 (proj2 (scenario_ready 0))))).
  - apply Exists_cons_hd. discriminate.
  - reflexivity.
Defined.

(** X7.  A step of an active weatherer that was built without a wave
    provider ([waves=None], the default of the constructor) raises
    [AttributeError] as soon as a bundle with elements has a row, when the
    ledger has the entry of the process and the shapes are consistent. *)
Theorem step_without_waves
    (phys : PhysicalModels) (self : Dissolution) (sc : SpillContainer)
    (time_step : float) (model_time : Z) (log : list env_query) :
  active self = true -> num_released sc <> 0%nat ->
  waves self = None ->
  Forall (fun sd : Substance * Data => shapes_ok (fst sd) (snd sd))
    (substance_data sc) ->
  Exists (fun sd : Substance * Data =>
            mass (snd sd) <> [] /\ element_rows (snd sd) <> 0%nat)
    (substance_data sc) ->
  is_Some (ledger sc) ->
  weather_elements phys self sc time_step model_time log
  = Raise AttributeError.
Proof.
  intros Ha Hn Hw Hall Hex Hl. unfold weather_elements.
  rewrite Ha. cbn [negb]. rewrite decide_False by assumption.
  apply bind_Raise. now apply weather_loop_no_waves.
Qed.

Lemma step_without_waves_witness :
  weather_elements stand_in_models self_no_waves scenario_sc
    scenario_time_step 0 [] = Raise AttributeError.
Proof.
  apply (step_without_waves stand_in_models self_no_waves scenario_sc
           scenario_time_step 0 [] eq_refl (fun E => O_S 0 (eq_sym E))
           eq_refl).
  - eapply Forall_impl;
      [exact (proj2 (proj2 (proj2 (scenario_ready 0))))|].
    intros sd H. exact (proj1 (proj1 H)).
  - apply Exists_cons_hd. split; discriminate.
  - exact (proj1 (proj2 (proj2 (scenario_ready 0)))).
Defined.

(** X8.  The outcome of a completed step does not depend on the time step,
    the model time, the wave provider or the query log, and of the
    physical models only the partition values matter: two completed steps
    from one container leave the same container. *)
Theorem step_outcome_independent
    (phys1 phys2 : PhysicalModels) (self1 self2 : Dissolution)
    (sc : SpillContainer) (time_step1 time_step2 : float)
    (model_time1 model_time2 : Z) (log1 log2 : list env_query)
    (sc1 sc2 : SpillContainer) (log1' log2' : list env_query) :
  LeeHuibers_partition_coeff phys1 = LeeHuibers_partition_coeff phys2 ->
  active self1 = active self2 ->
  weather_elements phys1 self1 sc time_step1 model_time1 log1
    = Ok (sc1, log1') ->
  weather_elements phys2 self2 sc time_step2 model_time2 log2
    = Ok (sc2, log2') ->
  sc1 = sc2.
Proof.
  intros HK Ha H1 H2.
  apply weather_elements_Ok in H1
    as [(T1 & -> & _)|(A1 & N1 & R1 & S1 & M1)];
  apply weather_elements_Ok in H2
    as [(T2 & -> & _)|(A2 & N2 & R2 & S2 & M2)].
  - reflexivity.
  - destruct T1; [congruence|contradiction].
  - destruct T2; [congruence|contradiction].
  - apply container_eq; [congruence|congruence|].
    eapply Forall2_unique; [exact S1| |].
    + eapply Forall2_impl; [exact S2|]. intros x y Hxy.
      eapply substance_step_models; [symmetry; exact HK|exact Hxy].
    + intros x y1 y2. apply substance_step_functional.
Qed.

Lemma step_outcome_independent_witness :
  exists sc1 log1 sc2 log2,
    weather_elements stand_in_models scenario_self scenario_sc
      scenario_time_step 0 [] = Ok (sc1, log1) /\
    weather_elements other_models calm_self scenario_sc 1 7 [WaterDensity]
      = Ok (sc2, log2) /\
    sc1 = sc2.
Proof.
  eexists _, _, _, _.
  assert (H1 : weather_elements stand_in_models scenario_self scenario_sc
                 scenario_time_step 0 [] = Ok (_, _))
    by (vm_compute; reflexivity).
  assert (H2 : weather_elements other_models calm_self scenario_sc 1 7
                 [WaterDensity] = Ok (_, _))
    by (vm_compute; reflexivity).
  split; [exact H1|]. split; [exact H2|].
  exact (step_outcome_independent stand_in_models other_models scenario_self
           calm_self scenario_sc scenario_time_step 1 0 7 [] [WaterDensity]
           _ _ _ _ eq_refl eq_refl H1 H2).
Defined.



(** X10.  [initialize_data] on a weatherer that is on, over bundles whose
    [spill_num] matches [partition_coeff] in length: when the claimed
    count is the number of rows of all bundles, it stores [0.0] in every
    [partition_coeff] entry that compares equal to zero (so a negative
    zero becomes [0.0]) and changes nothing else; with any other count it
    raises [AssertionError]. *)
Theorem initialize_data_effect
    (self : Dissolution) (sc : SpillContainer) (released : nat) :
  on self = true ->
  Forall spill_shape_ok (substance_data sc) ->
  initialize_data self sc released
  = if decide (total_rows (substance_data sc) = released)
    then Ok (with_substance_data sc
               (map reset_sentinels (substance_data sc)))
    else Raise AssertionError.
Proof.
  intros Hon Hshape. unfold initialize_data, _initialize_k_ow.
  rewrite Hon. cbn [negb]. unfold itersubstancedata.
  rewrite (initialize_loop_exact _ Hshape). cbn [Nat.add].
  reflexivity.
Qed.

Lemma initialize_data_effect_witness :
  initialize_data scenario_self neg_zero_sc 1
  = if decide (total_rows (substance_data neg_zero_sc) = 1%nat)
    then Ok (with_substance_data neg_zero_sc
               (map reset_sentinels (substance_data neg_zero_sc)))
    else Raise AssertionError.
Proof.
  apply (initialize_data_effect scenario_self neg_zero_sc 1 eq_refl).
  constructor; [intros _; reflexivity|constructor].
Defined.

(** X11.  [initialize_data] is idempotent: a call that has completed can
    be repeated with the same count, and the repetition changes
    nothing. *)
Theorem initialize_data_idempotent
    (self : Dissolution) (sc : SpillContainer) (released : nat)
    (sc' : SpillContainer) :
  Forall spill_shape_ok (substance_data sc) ->
  initialize_data self sc released = Ok sc' ->
  initialize_data self sc' released = Ok sc'.
Proof.
  intros Hshape. unfold initialize_data, _initialize_k_ow.
  destruct (on self); cbn [negb]; [|now intros [= <-]].
  unfold itersubstancedata.
  rewrite (initialize_loop_exact _ Hshape). cbn [Nat.add].
  destruct (decide (total_rows (substance_data sc) = released)) as [E|E];
    [|discriminate].
  intros [= <-]. cbn [with_substance_data substance_data].
  rewrite (initialize_loop_exact _ (reset_sentinels_shape _ Hshape)).
  cbn [Nat.add]. rewrite reset_sentinels_rows, decide_True by assumption.
  f_equal. unfold with_substance_data. cbn. f_equal.
  rewrite map_map. apply map_ext. intros sd. apply reset_sentinels_twice.
Qed.

Lemma initialize_data_idempotent_witness :
  exists sc',
    initialize_data scenario_self neg_zero_sc 1 = Ok sc' /\
    initialize_data scenario_self sc' 1 = Ok sc'.
Proof.
  eexists.
  assert (H : initialize_data scenario_self neg_zero_sc 1 = Ok _)
    by (vm_compute; reflexivity).
  split; [exact H|].
  apply (initialize_data_idempotent scenario_self neg_zero_sc 1 _);
    [|exact H].
  constructor; [intros _; reflexivity|constructor].
Defined.

(** X12.  What [initialize_data] stores does not reach the outcome of the
    next step: on bundles whose arrays have one entry per element, a
    completed step after a completed [initialize_data] leaves the
    container that a completed step without it leaves. *)
Theorem initialize_data_does_not_reach_step
    (phys : PhysicalModels) (self : Dissolution) (sc : SpillContainer)
    (released : nat) (sc0 : SpillContainer)
    (time_step1 time_step2 : float) (model_time1 model_time2 : Z)
    (log1 log2 : list env_query)
    (sc1 sc2 : SpillContainer) (log1' log2' : list env_query) :
  active self = true -> num_released sc <> 0%nat ->
  Forall rows_aligned (substance_data sc) ->
  initialize_data self sc released = Ok sc0 ->
  weather_elements phys self sc time_step1 model_time1 log1
    = Ok (sc1, log1') ->
  weather_elements phys self sc0 time_step2 model_time2 log2
    = Ok (sc2, log2') ->
  sc2 = sc1.
Proof.
  intros Ha Hn Hal Hi H1 H2.
  assert (Hinit : num_released sc0 = num_released sc /\
                  mass_balance sc0 = mass_balance sc /\
                  Forall2 initialized (substance_data sc) (substance_data sc0)).
  { apply initialize_data_Ok in Hi as [[_ ->]|(_ & _ & A & B & C)]; [|auto].
    split; [reflexivity|]. split; [reflexivity|apply initialized_all_refl]. }
  destruct Hinit as (Hn0 & Hmb0 & Hall0).
  apply weather_elements_Ok in H1
    as [([T|T] & _)|(_ & _ & R1 & S1 & M1)]; [congruence|contradiction|].
  apply weather_elements_Ok in H2
    as [([T|T] & _)|(_ & _ & R2 & S2 & M2)]; [congruence|congruence|].
  apply container_eq; [congruence| |eapply steps_reinit; eauto].
  rewrite M1, M2, Hmb0. now rewrite (initialized_processed _ _ Hall0).
Qed.

Lemma initialize_data_does_not_reach_step_witness :
  exists sc0 sc1 log1 sc2 log2,
    initialize_data scenario_self neg_zero_sc 1 = Ok sc0 /\
    weather_elements stand_in_models scenario_self neg_zero_sc
      scenario_time_step 0 [] = Ok (sc1, log1) /\
    weather_elements stand_in_models scenario_self sc0
      scenario_time_step 0 [] = Ok (sc2, log2) /\
    sc2 = sc1.
Proof.
  eexists _, _, _, _, _.
  assert (H0 : initialize_data scenario_self neg_zero_sc 1 = Ok _)
    by (vm_compute; reflexivity).
  assert (H1 : weather_elements stand_in_models scenario_self neg_zero_sc
                 scenario_time_step 0 [] = Ok (_, _))
    by (vm_compute; reflexivity).
  split; [exact H0|]. split; [exact H1|].
  match goal with
  | |- weather_elements ?p ?s ?c ?t ?m ?l = _ /\ _ =>
      assert (H2 : weather_elements p s c t m l = Ok (_, _))
        by (vm_compute; reflexivity)
  end.
  split; [exact H2|].
  refine (initialize_data_does_not_reach_step stand_in_models scenario_self
            neg_zero_sc 1 _ scenario_time_step scenario_time_step 0 0 [] []
            _ _ _ _ eq_refl (fun E => O_S 0 (eq_sym E)) _ H0 H1 H2).
  constructor; [|constructor].
  split; [|reflexivity].
  repeat split; try reflexivity. repeat constructor.
Defined.

(** X13.  [beta_coeff] divides by the overall partition coefficient
    without a guard: when that coefficient is zero (of either sign) the
    result is an infinity or NaN, whatever the transfer velocity, the
    inert volume and the power function. *)
Theorem beta_coeff_zero_K_ow
    (phys : PhysicalModels) (k_w K_ow v_inert : float) :
  (K_ow =? 0) = true ->
  is_finite (beta_coeff phys k_w K_ow v_inert) = false.
Proof.
  intros H. unfold beta_coeff. apply mul_not_finite_l.
  now apply div_by_zero_not_finite.
Qed.

Lemma beta_coeff_zero_K_ow_witness :
  is_finite (beta_coeff stand_in_models 0.001 (-0) 0.1) = false.
Proof.
  apply (beta_coeff_zero_K_ow stand_in_models 0.001 (-0) 0.1). reflexivity.
Defined.


End FurtherProperties.

(** * Signs and NaN *)

Section SignFacts.
Local Open Scope float_scope.

(** Rounding a non-negative mantissa keeps the sign bit. *)
Lemma binary_round_aux_signed s mx ex lx :
  (0 <= mx)%Z -> SFsigned s (binary_round_aux prec emax s mx ex lx).
Proof.
  intros H. unfold binary_round_aux, shr_fexp.
  destruct (shr (shr_record_of_loc mx lx) ex _) as [mrs' e'] eqn:E1.
  assert (H1 : (0 <= shr_m mrs')%Z).
  { change mrs' with (fst (mrs', e')). rewrite <- E1. apply shr_nonneg.
    now rewrite shr_record_of_loc_m. }
  destruct (shr (shr_record_of_loc _ loc_Exact) e' _)
    as [mrs'' e''] eqn:E2.
  assert (H2 : (0 <= shr_m mrs'')%Z).
  { change mrs'' with (fst (mrs'', e'')). rewrite <- E2. apply shr_nonneg.
    rewrite shr_record_of_loc_m. now apply round_nearest_even_nonneg. }
  destruct (shr_m mrs'') as [|p|p]; [exact I| |lia].
  destruct (e'' <=? emax - prec)%Z; reflexivity.
Qed.

Lemma SFsigned_not_pos x : SFsigned true x -> SFnot_pos x.
Proof. destruct x; cbn; auto. Qed.

Lemma div_eucl_nonneg a b :
  (0 <= a)%Z -> (0 < b)%Z -> (0 <= fst (Z.div_eucl a b))%Z.
Proof.
  intros Ha Hb. pose proof (Z.div_pos a b Ha Hb) as H.
  unfold Z.div in H. now destruct (Z.div_eucl a b).
Qed.

Lemma SFdiv_core_nonneg mx ex my ey :
  (0 <= fst (fst (SFdiv_core_binary prec emax (Z.pos mx) ex (Z.pos my) ey)))%Z.
Proof.
  unfold SFdiv_core_binary.
  set (s := (ex - ey - _)%Z).
  set (m' := match s with 0%Z => Z.pos mx | Z.pos _ => _ | Z.neg _ => 0%Z end).
  assert (Hm : (0 <= m')%Z).
  { unfold m'. destruct s; [lia| |lia]. apply Z.shiftl_nonneg. lia. }
  pose proof (div_eucl_nonneg m' (Z.pos my) Hm eq_refl) as H.
  change (IntDef.Z.div_eucl m' (Z.pos my)) with (Z.div_eucl m' (Z.pos my)).
  now destruct (Z.div_eucl m' (Z.pos my)).
Qed.

(** A value that is not positive, divided by a positive value, is not
    positive. *)
Lemma SFdiv_not_pos x y :
  SFnot_pos x -> SFltb (S754_zero false) y = true ->
  SFnot_pos (SFdiv prec emax x y).
Proof.
  destruct x as [sx|sx| |sx mx ex], y as [sy|sy| |sy my ey]; cbn;
    intros Hx Hy; try discriminate; try exact I;
    destruct sy; try discriminate; subst; try reflexivity.
  pose proof (SFdiv_core_nonneg mx ex my ey) as H.
  unfold SFdiv.
  destruct (SFdiv_core_binary prec emax (Z.pos mx) ex (Z.pos my) ey)
    as [[mz ez] lz].
  apply SFsigned_not_pos. now apply binary_round_aux_signed.
Qed.

(** A value that is not positive, times a value that is not negative, is
    not positive. *)
Lemma SFmul_not_pos x y :
  SFnot_pos x -> SFnonneg y -> SFnot_pos (SFmul prec emax x y).
Proof.
  destruct x as [sx|sx| |sx mx ex], y as [sy|sy| |sy my ey]; cbn;
    intros Hx Hy; try contradiction; try exact I; subst; try reflexivity.
  apply SFsigned_not_pos. now apply binary_round_aux_signed.
Qed.

Lemma not_pos_spec (x : float) :
  SFnot_pos (Prim2SF x) -> (0 <? x) = false.
Proof.
  rewrite FloatAxioms.ltb_spec. change (Prim2SF 0) with (S754_zero false).
  destruct (Prim2SF x) as [s|s| |s m e]; cbn; try reflexivity;
    now intros ->.
Qed.

Lemma nan_mul_l (y : float) : nan * y = nan.
Proof.
  apply Prim2SF_inj. rewrite FloatAxioms.mul_spec.
  change (Prim2SF nan) with S754_nan. reflexivity.
Qed.

End SignFacts.

(** * Further properties of the computed values *)

Section ValueProperties.
Local Open Scope float_scope.

(** X15.  [beta_coeff] is never positive on a transfer velocity that is
    not negative and a positive partition coefficient, when the power of
    the inert volume is not negative: the result compares less than or
    equal to zero, or it is NaN. *)
Theorem beta_coeff_never_positive
    (phys : PhysicalModels) (k_w K_ow v_inert : float) :
  nonneg k_w = true -> (0 <? K_ow) = true ->
  nonneg (float_pow phys v_inert (2 / 3)) = true ->
  (0 <? beta_coeff phys k_w K_ow v_inert) = false.
Proof.
  rewrite !nonneg_spec, FloatAxioms.ltb_spec.
  change (Prim2SF 0) with (S754_zero false).
  intros Hk HK Hp. unfold beta_coeff. apply not_pos_spec.
  rewrite FloatAxioms.mul_spec, FloatAxioms.div_spec, FloatAxioms.mul_spec.
  apply SFmul_not_pos; [|assumption].
  apply SFdiv_not_pos; [|assumption].
  apply SFmul_not_pos; [|assumption].
  vm_compute. reflexivity.
Qed.

Lemma beta_coeff_never_positive_witness :
  (0 <? beta_coeff stand_in_models 0.001 627.5 0.1) = false.
Proof.
  apply (beta_coeff_never_positive stand_in_models 0.001 627.5 0.1);
    reflexivity.
Defined.

(** X16.  [oil_avg_density] has no guard for an element that has lost all
    its mass: on component masses that are all [0.0] (and at least one
    component) it divides zero by zero and returns NaN, raising nothing
    and sending no query. *)
Theorem oil_avg_density_without_mass
    (masses densities : list float) (log : list env_query) :
  masses <> [] -> Forall (fun x => x = 0) masses ->
  length masses = length densities ->
  oil_avg_density masses densities log = Ok (nan, log).
Proof.
  intros Hne Hz Hlen. unfold oil_avg_density.
  unfold bind at 1, assert_ at 1. rewrite bool_decide_eq_true_2 by assumption.
  unfold bind at 1, lift at 1.
  rewrite broadcast_same_length by (now rewrite length_map).
  unfold ret. rewrite (np_sum_all_zero masses Hz). do 2 f_equal.
  apply (np_sum_closed_nonempty (fun x => x = nan)).
  - now intros x y -> ->.
  - now intros x ->.
  - apply Forall_lookup. intros i x Hx.
    apply lookup_zip_with_Some in Hx as (a & b & -> & Ha & Hb).
    rewrite list_lookup_fmap in Ha.
    destruct (masses !! i) as [mi|] eqn:E; [|discriminate].
    cbn in Ha. injection Ha as <-.
    pose proof (Forall_lookup_1 _ _ _ _ Hz E) as Hmi. cbn in Hmi. subst mi.
    change (0 / 0) with nan. apply nan_mul_l.
  - destruct masses as [|m0 ms]; [contradiction|].
    destruct densities; discriminate.
Qed.

Lemma oil_avg_density_without_mass_witness :
  oil_avg_density [0; 0] [900; 850] [] = Ok (nan, []).
Proof.
  apply (oil_avg_density_without_mass [0; 0] [900; 850] []).
  - discriminate.
  - repeat constructor.
  - reflexivity.
Defined.
End ValueProperties.

(** * Bounds of the stores *)

Section BoundProperties.
Local Open Scope float_scope.

(** X17.  [dissolve_oil] stores coefficients only at the indices of the
    rows that its loop goes through, which are as many as the shorter of
    [mass_components] and [droplet_avg_size] has: [partition_coeff] keeps
    its length and every entry from that index on, and no other array of
    the bundle changes. *)
Theorem dissolve_oil_store_bounds
    (phys : PhysicalModels) (self : Dissolution) (d : Data) (s : Substance)
    (model_time : Z) (time_step : float) (log : list env_query)
    (d' : Data) (diss : list float) (log' : list env_query) :
  dissolve_oil phys self d s model_time time_step log
    = Ok ((d', diss), log') ->
  element_rows d
  = Nat.min (length (mass_components d)) (length (droplet_avg_size d)) /\
  length (partition_coeff d') = length (partition_coeff d) /\
  (forall j, element_rows d <= j ->
             partition_coeff d' !! j = partition_coeff d !! j) /\
  d' = set_partition_coeff d (partition_coeff d').
Proof.
  intros H.
  apply dissolve_oil_Ok in H as (_ & pc & -> & L & kc & _ & _ & Hrest).
  cbn [set_partition_coeff partition_coeff].
  split; [apply length_zip|]. split; [assumption|]. split; [|reflexivity].
  exact Hrest.
Qed.

Lemma dissolve_oil_store_bounds_witness :
  exists d' diss log',
    dissolve_oil stand_in_models scenario_self short_droplets_data
      scenario_substance 0 scenario_time_step [] = Ok ((d', diss), log') /\
    element_rows short_droplets_data = 1%nat /\
    partition_coeff d' !! 1%nat = Some 7.
Proof.
  eexists _, _, _.
  assert (H : dissolve_oil stand_in_models scenario_self short_droplets_data
                scenario_substance 0 scenario_time_step []
              = Ok ((_, _), _))
    by (vm_compute; reflexivity).
  split; [exact H|].
  destruct (dissolve_oil_store_bounds stand_in_models scenario_self
              short_droplets_data scenario_substance 0 scenario_time_step []
              _ _ _ H) as (Hrows & _ & Hkeep & _).
  split; [exact Hrows|].
  exact (Hkeep 1%nat (le_n 1)).
Defined.
End BoundProperties.
